(** * my::shared_ptr: a shallow embedding of shared_ptr.hpp

    The header defines a control block ([ControlBlock<T>]) holding two
    atomic counters and a deleter, and a reference-counted handle
    ([shared_ptr<T>]) holding a raw payload pointer and a pointer to a
    control block.

    Modelling choices.
    - A payload pointer [T*] is an address in [Z]; [nullptr] is [0].  The
      payload object itself is opaque: the header only ever passes its
      address to the deleter.
    - A [ControlBlock<T>*] is [option positive]: [None] is [nullptr],
      [Some b] is the address [b] of a block obtained from [new].  The block
      heap maps an address to [Live cb] or, after [delete], to [Freed];
      addresses are never handed out twice, so a pointer that outlives its
      block stays dangling, and every access through it is undefined
      behaviour (result [UB]).
    - Handles are objects with an identity (their address, a [nat]); the
      object store maps addresses to their two members.  Member functions
      read and write members through the store, so that [this == &other]
      behaves as in the source.
    - [size_t] is 64 bits wide and [long] is 64 bits wide (LP64); arithmetic
      on [size_t] wraps modulo [2^64].
    - [print_msg] only writes to [std::cout] and is left out.
    - The events that matter to ownership are recorded in a trace: every
      [call_deleter], every [delete] of a payload by [default_deleter], and
      every [delete] of a control block. *)

From Stdlib Require Import ZArith Lia List.
From stdpp Require Import base option list gmap.

Open Scope Z_scope.

(** ** Machine integers *)

Definition size_t_modulus : Z := 2 ^ 64.
Definition long_half : Z := 2 ^ 63.

(** Arithmetic on [size_t] is modulo [2^64]. *)
Definition wrap_size_t (z : Z) : Z := z mod size_t_modulus.

(** Conversion [size_t -> long], as performed by [return get_shared_cnt();]
    in [use_count]. *)
Definition to_long (z : Z) : Z :=
  if z <? long_half then z else z - size_t_modulus.

(** ** Pointers, deleters, events *)

Definition nullptr : Z := 0.

(** A [std::function] value taking a [T*]: either the default deleter of the
    header or a callable supplied by the caller, known here only by a name. *)
Inductive deleter : Type :=
| my_default_deleter
| user_deleter (name : nat).

Inductive event : Type :=
| EvCallDeleter (b : positive) (d : deleter) (p : Z)
    (* [deleter_ptr_(ptr_)] run on block [b] *)
| EvDeletePayload (p : Z)
    (* [delete ptr] inside [default_deleter] *)
| EvDeleteBlock (b : positive).
    (* [delete control_block_ptr] *)

#[global] Instance deleter_eq_dec : EqDecision deleter.
Proof. solve_decision. Defined.

#[global] Instance event_eq_dec : EqDecision event.
Proof. solve_decision. Defined.

(** ** Data *)

Module ControlBlock.
Record t : Type := Build {
  ptr_ : Z;
  shared_refs_ : Z;           (* std::atomic<size_t>, initially 1 *)
  weak_refs_ : Z;             (* std::atomic<size_t>, initially 0 *)
  deleter_ptr_ : deleter
}.
End ControlBlock.

Inductive cell : Type :=
| Live (cb : ControlBlock.t)
| Freed.

Module shared_ptr.
Record t : Type := Build {
  ptr_ : Z;
  control_block_ptr : option positive
}.
End shared_ptr.

Record state : Type := State {
  objs : gmap nat shared_ptr.t;     (* live handle objects, by address *)
  heap : gmap positive cell;        (* control blocks ever allocated *)
  trace : list event                (* oldest event first *)
}.

Definition empty_state : state := State ∅ ∅ [].

(** ** Undefined behaviour and the state monad *)

Inductive ub : Type :=
| NullDereference      (* [p->...] with [p == nullptr] *)
| UseAfterFree         (* access to a control block after its [delete] *)
| DoubleFree           (* [delete] of a control block already deleted *)
| WildPointer          (* address that [new] never returned *)
| NoSuchObject.        (* member function on a handle that is not alive *)

Inductive result (A : Type) : Type :=
| Ok (a : A) (s : state)
| UB (e : ub).
Arguments Ok {A} a s.
Arguments UB {A} e.

Definition M (A : Type) : Type := state -> result A.

Definition ret {A} (a : A) : M A := fun s => Ok a s.

Definition bind {A B} (m : M A) (k : A -> M B) : M B :=
  fun s => match m s with
           | Ok a s' => k a s'
           | UB e => UB e
           end.

Definition fail {A} (e : ub) : M A := fun _ => UB e.

Declare Scope cpp_scope.
Delimit Scope cpp_scope with cpp.
Notation "x <- m ;; k" := (bind m (fun x => k))
  (at level 100, m at next level, right associativity) : cpp_scope.
Notation "m ;; k" := (bind m (fun _ => k))
  (at level 100, right associativity) : cpp_scope.
Open Scope cpp_scope.

Definition emit (e : event) : M unit :=
  fun s => Ok tt (State (objs s) (heap s) (trace s ++ [e])).

(** ** The block heap *)

(** [*b]: the block behind a non-null pointer. *)
Definition block_at (b : positive) : M ControlBlock.t :=
  fun s => match heap s !! b with
           | Some (Live cb) => Ok cb s
           | Some Freed => UB UseAfterFree
           | None => UB WildPointer
           end.

Definition store_block (b : positive) (cb : ControlBlock.t) : M unit :=
  fun s => Ok tt (State (objs s) (<[b := Live cb]> (heap s)) (trace s)).

(** [new ControlBlock<T>(...)]: a fresh address. *)
Definition new_block (cb : ControlBlock.t) : M positive :=
  fun s => let b := fresh (dom (heap s)) in
           Ok b (State (objs s) (<[b := Live cb]> (heap s)) (trace s)).

(** [delete b]: runs [~ControlBlock] (which only prints) and frees. *)
Definition delete_block (b : positive) : M unit :=
  fun s => match heap s !! b with
           | Some (Live _) =>
               Ok tt (State (objs s) (<[b := Freed]> (heap s))
                            (trace s ++ [EvDeleteBlock b]))
           | Some Freed => UB DoubleFree
           | None => UB WildPointer
           end.

(** [p->], for a [ControlBlock<T>* p]. *)
Definition deref (p : option positive) : M positive :=
  match p with
  | Some b => ret b
  | None => fail NullDereference
  end.

(** ** The deleter *)

(** [default_deleter<T>]: [if (ptr) { delete ptr; ptr = nullptr; }]; the
    assignment is to the by-value parameter and has no effect outside. *)
Definition default_deleter (p : Z) : M unit :=
  if p =? nullptr then ret tt else emit (EvDeletePayload p).

(** Calling a [std::function] value taking a [T*].  What a deleter supplied
    by the caller does with the payload is not part of the header; that it
    was called is recorded by [call_deleter]. *)
Definition invoke (d : deleter) (p : Z) : M unit :=
  match d with
  | my_default_deleter => default_deleter p
  | user_deleter _ => ret tt
  end.

(** ** ControlBlock<T> *)

(** The constructors [ControlBlock(T* ptr)] and
    [ControlBlock(T* ptr, std::function deleter)], with the default member
    initialisers of the class. *)
Definition ControlBlock_ctor (p : Z) : ControlBlock.t :=
  ControlBlock.Build p 1 0 my_default_deleter.

Definition ControlBlock_ctor_deleter (p : Z) (d : deleter) : ControlBlock.t :=
  ControlBlock.Build p 1 0 d.

(** The atomic operations on [shared_refs_] and [weak_refs_] of the block at
    [b].  Each one is a single indivisible access. *)
Definition shared_load (b : positive) : M Z :=
  cb <- block_at b ;; ret (ControlBlock.shared_refs_ cb).

Definition weak_load (b : positive) : M Z :=
  cb <- block_at b ;; ret (ControlBlock.weak_refs_ cb).

Definition shared_exchange (b : positive) (v : Z) : M Z :=
  cb <- block_at b ;;
  store_block b (ControlBlock.Build (ControlBlock.ptr_ cb) v
                   (ControlBlock.weak_refs_ cb)
                   (ControlBlock.deleter_ptr_ cb)) ;;
  ret (ControlBlock.shared_refs_ cb).

(** [void call_deleter() { deleter_ptr_(ptr_); }] *)
Definition call_deleter (b : positive) : M unit :=
  cb <- block_at b ;;
  emit (EvCallDeleter b (ControlBlock.deleter_ptr_ cb) (ControlBlock.ptr_ cb)) ;;
  invoke (ControlBlock.deleter_ptr_ cb) (ControlBlock.ptr_ cb).

(** [shared_refs()] and [weak_refs()]: [return shared_refs_.load();] *)
Definition shared_refs (b : positive) : M Z := shared_load b.
Definition weak_refs (b : positive) : M Z := weak_load b.

(** [shared_refs_.exchange(shared_refs_ + 1);]: the argument is evaluated
    with a load, then the exchange stores it; the value the exchange returns
    is dropped. *)
Definition increment_shared (b : positive) : M unit :=
  v <- shared_load b ;;
  shared_exchange b (wrap_size_t (v + 1)) ;;
  ret tt.

(** [if (shared_refs_) { shared_refs_.exchange(shared_refs_ - 1); }] *)
Definition decrement_shared (b : positive) : M unit :=
  c <- shared_load b ;;
  if c =? 0 then ret tt
  else
    v <- shared_load b ;;
    shared_exchange b (wrap_size_t (v - 1)) ;;
    ret tt.

(** ** shared_ptr<T>: members through the object store *)

Definition this_obj (this : nat) : M shared_ptr.t :=
  fun s => match objs s !! this with
           | Some o => Ok o s
           | None => UB NoSuchObject
           end.

Definition read_ptr_ (this : nat) : M Z :=
  o <- this_obj this ;; ret (shared_ptr.ptr_ o).

Definition read_control_block_ptr (this : nat) : M (option positive) :=
  o <- this_obj this ;; ret (shared_ptr.control_block_ptr o).

Definition write_ptr_ (this : nat) (p : Z) : M unit :=
  o <- this_obj this ;;
  fun s => Ok tt (State
    (<[this := shared_ptr.Build p (shared_ptr.control_block_ptr o)]> (objs s))
    (heap s) (trace s)).

Definition write_control_block_ptr (this : nat) (c : option positive) : M unit :=
  o <- this_obj this ;;
  fun s => Ok tt (State
    (<[this := shared_ptr.Build (shared_ptr.ptr_ o) c]> (objs s))
    (heap s) (trace s)).

(** Storage for a new handle object, with the default member initialisers
    [ptr_ = nullptr] and [control_block_ptr = nullptr]. *)
Definition new_obj : M nat :=
  fun s => let this := fresh (dom (objs s)) in
           Ok this (State (<[this := shared_ptr.Build nullptr None]> (objs s))
                          (heap s) (trace s)).

(** End of the lifetime of a handle object, after its destructor body. *)
Definition end_obj (this : nat) : M unit :=
  fun s => Ok tt (State (delete this (objs s)) (heap s) (trace s)).

(** ** shared_ptr<T>: constructors and destructor *)

(** [shared_ptr(T* ptr = nullptr)] *)
Definition shared_ptr_ctor (p : Z) : M nat :=
  this <- new_obj ;;
  write_ptr_ this p ;;
  p' <- read_ptr_ this ;;
  (if p' =? nullptr then ret tt
   else
     b <- new_block (ControlBlock_ctor p') ;;
     write_control_block_ptr this (Some b)) ;;
  ret this.

(** [shared_ptr(T* ptr, std::function deleter)] *)
Definition shared_ptr_ctor_deleter (p : Z) (d : deleter) : M nat :=
  this <- new_obj ;;
  write_ptr_ this p ;;
  p' <- read_ptr_ this ;;
  (if p' =? nullptr then ret tt
   else
     b <- new_block (ControlBlock_ctor_deleter p' d) ;;
     write_control_block_ptr this (Some b)) ;;
  ret this.

(** The body of [~shared_ptr] once [control_block_ptr] is known to be
    non-null: decrement, test for zero and call the deleter, test again and
    delete the block. *)
Definition release (b : positive) : M unit :=
  decrement_shared b ;;
  c <- shared_refs b ;;
  (if c =? 0 then call_deleter b else ret tt) ;;
  c' <- shared_refs b ;;
  if c' =? 0 then
    w <- weak_refs b ;;
    if w =? 0 then delete_block b else ret tt
  else ret tt.

(** [~shared_ptr()] *)
Definition shared_ptr_dtor (this : nat) : M unit :=
  c <- read_control_block_ptr this ;;
  match c with
  | Some b => release b
  | None => ret tt
  end ;;
  end_obj this.

(** [get_shared_cnt()] and [get_weak_cnt()]: dereference
    [control_block_ptr] without a null test. *)
Definition get_shared_cnt (this : nat) : M Z :=
  c <- read_control_block_ptr this ;;
  b <- deref c ;;
  shared_refs b.

Definition get_weak_cnt (this : nat) : M Z :=
  c <- read_control_block_ptr this ;;
  b <- deref c ;;
  weak_refs b.

(** ** shared_ptr<T>: copy and move *)

(** [shared_ptr& operator=(const shared_ptr& other)]; [this != &other]
    compares the addresses of the two handle objects. *)
Definition copy_assign (this other : nat) : M unit :=
  if Nat.eqb this other then ret tt
  else
    c <- read_control_block_ptr this ;;
    match c with
    | Some b =>
        n <- shared_refs b ;;
        if n =? 1 then call_deleter b ;; delete_block b else ret tt
    | None => ret tt
    end ;;
    p <- read_ptr_ other ;;
    write_ptr_ this p ;;
    c' <- read_control_block_ptr other ;;
    write_control_block_ptr this c' ;;
    c'' <- read_control_block_ptr this ;;
    match c'' with
    | Some b => increment_shared b
    | None => ret tt
    end.

(** [shared_ptr(const shared_ptr& other)]: the increment is not guarded by
    a null test. *)
Definition copy_ctor (other : nat) : M nat :=
  this <- new_obj ;;
  p <- read_ptr_ other ;;
  write_ptr_ this p ;;
  c <- read_control_block_ptr other ;;
  write_control_block_ptr this c ;;
  c' <- read_control_block_ptr this ;;
  b <- deref c' ;;
  increment_shared b ;;
  ret this.

(** [shared_ptr& operator=(shared_ptr&& other)] *)
Definition move_assign (this other : nat) : M unit :=
  c <- read_control_block_ptr this ;;
  match c with
  | Some b =>
      call_deleter b ;;
      delete_block b ;;
      write_control_block_ptr this None
  | None => ret tt
  end ;;
  p <- read_ptr_ other ;;
  write_ptr_ this p ;;
  c' <- read_control_block_ptr other ;;
  write_control_block_ptr this c' ;;
  write_ptr_ other nullptr ;;
  write_control_block_ptr other None.

(** Initialising a new handle from an rvalue: [shared_ptr b(std::move(a))].
    The class declares a copy constructor, both assignment operators and a
    destructor, and no constructor taking [shared_ptr&&]; none is declared
    implicitly then, and the initialisation selects
    [shared_ptr(const shared_ptr&)], to whose parameter an rvalue binds. *)
Definition move_construct (other : nat) : M nat := copy_ctor other.

(** ** shared_ptr<T>: accessors and reset *)

(** [operator==(std::nullptr_t)] *)
Definition eq_nullptr (this : nat) : M bool :=
  c <- read_control_block_ptr this ;;
  ret (match c with None => true | Some _ => false end).

(** [operator->()] and [get()]: [return ptr_;] *)
Definition arrow (this : nat) : M Z := read_ptr_ this.
Definition get (this : nat) : M Z := read_ptr_ this.

(** [void reset()] *)
Definition reset (this : nat) : M unit :=
  c <- read_control_block_ptr this ;;
  match c with
  | Some b =>
      call_deleter b ;;
      delete_block b ;;
      write_control_block_ptr this None
  | None => ret tt
  end.

(** [void reset(T* other)] *)
Definition reset_ptr (this : nat) (other : Z) : M unit :=
  c <- read_control_block_ptr this ;;
  match c with
  | Some b =>
      call_deleter b ;;
      delete_block b ;;
      write_control_block_ptr this None
  | None => ret tt
  end ;;
  write_ptr_ this other ;;
  b' <- new_block (ControlBlock_ctor other) ;;
  write_control_block_ptr this (Some b').

(** [long use_count()] *)
Definition use_count (this : nat) : M Z :=
  c <- read_control_block_ptr this ;;
  match c with
  | None => ret 0
  | Some _ =>
      n <- get_shared_cnt this ;;
      ret (to_long n)
  end.

(** [explicit operator bool()] *)
Definition operator_bool (this : nat) : M bool :=
  c <- read_control_block_ptr this ;;
  ret (match c with Some _ => true | None => false end).

(** ** Observations on a state *)

Definition is_call_of (b : positive) (e : event) : bool :=
  match e with
  | EvCallDeleter b' _ _ => Pos.eqb b b'
  | _ => false
  end.

(** How many times [call_deleter] has run on block [b]. *)
Definition calls_in (b : positive) (T : list event) : nat :=
  length (filter (fun e => is_call_of b e = true) T).

Definition deleter_calls (b : positive) (s : state) : nat :=
  calls_in b (trace s).

(** How many live handles hold a pointer to block [b]. *)
Definition owners (b : positive) (s : state) : nat :=
  size (filter (fun kv => shared_ptr.control_block_ptr (snd kv) = Some b)
               (objs s)).

Definition live_count (b : positive) (s : state) : option Z :=
  match heap s !! b with
  | Some (Live cb) => Some (ControlBlock.shared_refs_ cb)
  | _ => None
  end.

(** The block [cb] with [shared_refs_] replaced by [v]. *)
Definition set_shared (v : Z) (cb : ControlBlock.t) : ControlBlock.t :=
  ControlBlock.Build (ControlBlock.ptr_ cb) v (ControlBlock.weak_refs_ cb)
                     (ControlBlock.deleter_ptr_ cb).

(** The events of one [call_deleter] on the block [cb] at [b]. *)
Definition deleter_events (b : positive) (cb : ControlBlock.t) : list event :=
  EvCallDeleter b (ControlBlock.deleter_ptr_ cb) (ControlBlock.ptr_ cb)
  :: match ControlBlock.deleter_ptr_ cb with
     | my_default_deleter =>
         if ControlBlock.ptr_ cb =? nullptr then []
         else [EvDeletePayload (ControlBlock.ptr_ cb)]
     | user_deleter _ => []
     end.

(** ** Client code used in the statements *)

(** The two ways client code makes one more copy of the handle [src]:
    [shared_ptr<T> c(src);] and [shared_ptr<T> c; c = src;]. *)
Inductive copy_how : Type :=
| ByCopyConstructor
| ByCopyAssignment.

Definition make_copy (w : copy_how) (src : nat) : M nat :=
  match w with
  | ByCopyConstructor => copy_ctor src
  | ByCopyAssignment =>
      c <- shared_ptr_ctor nullptr ;;
      copy_assign c src ;;
      ret c
  end.

(** A family of copies of one handle: starting from the handles in [fam],
    each element [(w, i)] of [picks] makes one more handle, in the way [w],
    from the [i]-th handle made so far ([h] when [i] is out of range).  No
    handle is destroyed or overwritten on the way. *)
Fixpoint make_copies (picks : list (copy_how * nat)) (h : nat)
         (fam : list nat) : M (list nat) :=
  match picks with
  | [] => ret fam
  | (w, i) :: picks' =>
      c <- make_copy w (nth i fam h) ;;
      make_copies picks' h (c :: fam)
  end.

(** States used as concrete inputs.  Each is what the named calls leave
    behind when run from [empty_state]. *)

(** One empty handle at address 0: [shared_ptr<T> a;] *)
Definition one_empty : state :=
  State {[ 0%nat := shared_ptr.Build nullptr None ]} ∅ [].

(** One handle at address 0 owning block 1 over payload 100:
    [shared_ptr<T> a(p);] *)
Definition one_owner : state :=
  State {[ 0%nat := shared_ptr.Build 100 (Some 1%positive) ]}
        {[ 1%positive := Live (ControlBlock_ctor 100) ]}
        [].

(** Handles 0 and 1 sharing block 1 (count 2) and handle 2 owning block 2:
    [shared_ptr<T> a(p); shared_ptr<T> b(a); shared_ptr<T> c(q);] *)
Definition two_owners : state :=
  State (<[ 2%nat := shared_ptr.Build 200 (Some 2%positive) ]>
        (<[ 1%nat := shared_ptr.Build 100 (Some 1%positive) ]>
         {[ 0%nat := shared_ptr.Build 100 (Some 1%positive) ]}))
        (<[ 2%positive := Live (ControlBlock_ctor 200) ]>
         {[ 1%positive := Live (set_shared 2 (ControlBlock_ctor 100)) ]})
        [].

(** Handles 0 and 1 sharing block 1 (count 2) and nothing else:
    [shared_ptr<T> a(p); shared_ptr<T> b(a);] *)
Definition two_copies : state :=
  State (<[ 1%nat := shared_ptr.Build 100 (Some 1%positive) ]>
         {[ 0%nat := shared_ptr.Build 100 (Some 1%positive) ]})
        {[ 1%positive := Live (set_shared 2 (ControlBlock_ctor 100)) ]}
        [].

(** [a(p); b(a); c(q); b = c;] followed by the destruction of all three
    handles. *)
Definition overwritten_copy_scenario : M unit :=
  h1 <- shared_ptr_ctor 100 ;;
  h2 <- copy_ctor h1 ;;
  h3 <- shared_ptr_ctor 200 ;;
  copy_assign h2 h3 ;;
  shared_ptr_dtor h1 ;;
  shared_ptr_dtor h2 ;;
  shared_ptr_dtor h3.

(** ** Destructors running on several threads

    The counters are [std::atomic<size_t>] with the default (sequentially
    consistent) ordering, so an execution of several threads is an
    interleaving of their atomic accesses.  [dtor_pc] names the points of
    [~shared_ptr], for a handle whose [control_block_ptr] is not null,
    between two accesses to the shared block; [dtor_step] runs the code from
    one point to the next.  Each thread destroys a handle of its own, so the
    handle objects are not shared and only the block is. *)

Inductive dtor_pc : Type :=
| AtDecTest                (* decrement_shared: [if (shared_refs_)] *)
| AtDecLoad                (* decrement_shared: the load in [shared_refs_ - 1] *)
| AtDecExchange (v : Z)    (* decrement_shared: [exchange(v - 1)], [v] loaded *)
| AtZeroTest               (* [if (shared_refs() == 0)] *)
| AtCallDeleter            (* [call_deleter()] *)
| AtZeroTest2              (* [shared_refs() == 0 && ...] *)
| AtWeakTest               (* [... && weak_refs() == 0] *)
| AtDeleteBlock            (* [delete control_block_ptr] *)
| AtEnd.

Definition dtor_step (b : positive) (pc : dtor_pc) : M dtor_pc :=
  match pc with
  | AtDecTest =>
      c <- shared_load b ;; ret (if c =? 0 then AtZeroTest else AtDecLoad)
  | AtDecLoad =>
      v <- shared_load b ;; ret (AtDecExchange v)
  | AtDecExchange v =>
      shared_exchange b (wrap_size_t (v - 1)) ;; ret AtZeroTest
  | AtZeroTest =>
      c <- shared_refs b ;; ret (if c =? 0 then AtCallDeleter else AtZeroTest2)
  | AtCallDeleter =>
      call_deleter b ;; ret AtZeroTest2
  | AtZeroTest2 =>
      c <- shared_refs b ;; ret (if c =? 0 then AtWeakTest else AtEnd)
  | AtWeakTest =>
      w <- weak_refs b ;; ret (if w =? 0 then AtDeleteBlock else AtEnd)
  | AtDeleteBlock =>
      delete_block b ;; ret AtEnd
  | AtEnd => ret AtEnd
  end.

(** A thread is the block its handle points to and the point it has
    reached; a schedule lists which thread takes the next step. *)
Fixpoint run_schedule (sched : list nat) (ts : list (positive * dtor_pc))
  : M (list (positive * dtor_pc)) :=
  match sched with
  | [] => ret ts
  | i :: sched' =>
      match ts !! i with
      | Some (b, pc) =>
          pc' <- dtor_step b pc ;;
          run_schedule sched' (<[i := (b, pc')]> ts)
      | None => run_schedule sched' ts
      end
  end.

(** One thread running alone from the first point. *)
Definition release_by_steps (b : positive) : M unit :=
  run_schedule (repeat 0%nat 8) [(b, AtDecTest)] ;; ret tt.

(** The two threads of the concurrent executions below: each is about to
    run [~shared_ptr] on one of the two handles of [two_owners] that share
    block 1. *)
Definition two_threads : list (positive * dtor_pc) :=
  [(1%positive, AtDecTest); (1%positive, AtDecTest)].

(** Thread 0 decrements from 2 to 1, thread 1 from 1 to 0, and only then
    does each thread load the counter for its [== 0] test. *)
Definition both_see_zero : list nat := [0; 0; 0; 1; 1; 1; 0; 1; 0; 1]%nat.

(** Both threads load 2 before either stores: both store 1. *)
Definition lost_update : list nat := [0; 0; 1; 1; 0; 1; 0; 0; 1; 1]%nat.

(** ** A family of handles sharing one block *)

(** The handles of [fam] are distinct and alive, all point to the live
    block [b], and the count of [b] is their number. *)
Definition family (O : gmap nat shared_ptr.t) (H : gmap positive cell)
           (b : positive) (fam : list nat) : Prop :=
  NoDup fam
  /\ (forall c, c ∈ fam -> exists p, O !! c = Some (shared_ptr.Build p (Some b)))
  /\ exists cb, H !! b = Some (Live cb)
                /\ ControlBlock.shared_refs_ cb = Z.of_nat (length fam).

(** ** Client programs

    A client program is a list of calls of the public interface, each on
    handle objects named by their address; the result of an accessor is
    dropped.  [run_calls] runs the calls in order and stops at the first
    undefined behaviour. *)

Inductive call : Type :=
| Construct (p : Z)
| ConstructWithDeleter (p : Z) (d : deleter)
| CopyConstruct (other : nat)
| Destroy (this : nat)
| CopyAssign (this other : nat)
| MoveAssign (this other : nat)
| Reset (this : nat)
| ResetTo (this : nat) (p : Z)
| Get (this : nat)
| Arrow (this : nat)
| UseCount (this : nat)
| GetSharedCnt (this : nat)
| GetWeakCnt (this : nat)
| ToBool (this : nat)
| IsNull (this : nat).

Definition exec (c : call) : M unit :=
  match c with
  | Construct p => shared_ptr_ctor p ;; ret tt
  | ConstructWithDeleter p d => shared_ptr_ctor_deleter p d ;; ret tt
  | CopyConstruct other => copy_ctor other ;; ret tt
  | Destroy this => shared_ptr_dtor this
  | CopyAssign this other => copy_assign this other
  | MoveAssign this other => move_assign this other
  | Reset this => reset this
  | ResetTo this p => reset_ptr this p
  | Get this => get this ;; ret tt
  | Arrow this => arrow this ;; ret tt
  | UseCount this => use_count this ;; ret tt
  | GetSharedCnt this => get_shared_cnt this ;; ret tt
  | GetWeakCnt this => get_weak_cnt this ;; ret tt
  | ToBool this => operator_bool this ;; ret tt
  | IsNull this => eq_nullptr this ;; ret tt
  end.

Fixpoint run_calls (prog : list call) : M unit :=
  match prog with
  | [] => ret tt
  | c :: prog' => exec c ;; run_calls prog'
  end.

(** The state a program ends in (the starting state if it does not end). *)
Definition final_state (prog : list call) (s : state) : state :=
  match run_calls prog s with
  | Ok _ s' => s'
  | UB _ => s
  end.

Definition state_after (prog : list call) : state :=
  final_state prog empty_state.

(** [a(p); b(a); c(q); b = c; a.reset(); the destructor of c;
    b.use_count();] *)
Definition sample_program : list call :=
  [Construct 100; CopyConstruct 0; Construct 200; CopyAssign 1 2; Reset 0;
   Destroy 2; UseCount 1].

(** Programs that only construct, copy-construct and destroy. *)
Definition counting_program : list call :=
  [Construct 100; CopyConstruct 0; ConstructWithDeleter 200 (user_deleter 7);
   Destroy 0; CopyConstruct 1; Destroy 2; Destroy 1].

(** The same, with every handle destroyed by the end. *)
Definition balanced_program : list call :=
  [Construct 100; CopyConstruct 0; ConstructWithDeleter 200 (user_deleter 7);
   Destroy 0; CopyConstruct 1; Destroy 2; Destroy 1; Destroy 3].

(** Calls that do not overwrite a handle: everything but the two
    assignments and the two [reset]s. *)
Definition no_overwrite (c : call) : bool :=
  match c with
  | CopyAssign _ _ | MoveAssign _ _ | Reset _ | ResetTo _ _ => false
  | _ => true
  end.

(** One owner at address 0 and one empty handle at address 1:
    [shared_ptr<T> a(p); shared_ptr<T> b;] *)
Definition owner_and_empty : state :=
  State (<[ 1%nat := shared_ptr.Build nullptr None ]>
         {[ 0%nat := shared_ptr.Build 100 (Some 1%positive) ]})
        {[ 1%positive := Live (ControlBlock_ctor 100) ]}
        [].

(** ** Invariants of sequential executions *)

(** A handle is sound in a heap when it is empty, or points to an address
    that was allocated and, if the block there is still alive, caches the
    payload of that block. *)
Definition handle_ok (H : gmap positive cell) (o : shared_ptr.t) : Prop :=
  match shared_ptr.control_block_ptr o with
  | None => True
  | Some b =>
      match H !! b with
      | Some (Live cb) => ControlBlock.ptr_ cb = shared_ptr.ptr_ o
      | Some Freed => True
      | None => False
      end
  end.

(** A block with no weak reference and a count in the range of [size_t]. *)
Definition block_ok (cb : ControlBlock.t) : Prop :=
  ControlBlock.weak_refs_ cb = 0
  /\ 0 <= ControlBlock.shared_refs_ cb < size_t_modulus.

(** The deleter of a block has run once if the block was deleted and not at
    all otherwise. *)
Definition calls_ok (H : gmap positive cell) (T : list event) : Prop :=
  forall b, calls_in b T = match H !! b with Some Freed => 1%nat | _ => 0%nat end.

Definition consistent (s : state) : Prop :=
  (forall h o, objs s !! h = Some o -> handle_ok (heap s) o)
  /\ (forall b cb, heap s !! b = Some (Live cb) -> block_ok cb)
  /\ calls_ok (heap s) (trace s).

(** What can change in the block heap and the trace between two states of
    one execution: a freed block stays freed, a live block is freed or keeps
    its payload, deleter and weak count, and the trace only grows. *)
Definition evolves (s s' : state) : Prop :=
  (forall b, heap s !! b = Some Freed -> heap s' !! b = Some Freed)
  /\ (forall b cb, heap s !! b = Some (Live cb) ->
        heap s' !! b = Some Freed
        \/ exists cb', heap s' !! b = Some (Live cb')
             /\ ControlBlock.ptr_ cb' = ControlBlock.ptr_ cb
             /\ ControlBlock.deleter_ptr_ cb' = ControlBlock.deleter_ptr_ cb
             /\ ControlBlock.weak_refs_ cb' = ControlBlock.weak_refs_ cb)
  /\ exists T', trace s' = trace s ++ T'.

(** A computation all of whose successful runs relate its two states by
    [evolves]. *)
Definition steps {A} (m : M A) : Prop :=
  forall s a s', m s = Ok a s' -> evolves s s'.

(** The number of owners a handle adds to block [b]. *)
Definition weight (b : positive) (o : shared_ptr.t) : nat :=
  if decide (shared_ptr.control_block_ptr o = Some b) then 1%nat else 0%nat.

(** Every live block counts exactly its owners and has at least one; no
    handle points to a freed block or to an address never allocated. *)
Definition counted (s : state) : Prop :=
  forall b,
    match heap s !! b with
    | Some (Live cb) =>
        ControlBlock.shared_refs_ cb = Z.of_nat (owners b s)
        /\ (0 < owners b s)%nat
    | _ => owners b s = 0%nat
    end.

(* ================================================================== *)
(** * Properties *)

(** ** The monad *)

Lemma bind_Ok {A B} (m : M A) (k : A -> M B) (s : state) (a : A) (s' : state) :
  m s = Ok a s' -> bind m k s = k a s'.
Proof. unfold bind. intros ->. reflexivity. Qed.

Lemma bind_UB {A B} (m : M A) (k : A -> M B) (s : state) (e : ub) :
  m s = UB e -> bind m k s = UB e.
Proof. unfold bind. intros ->. reflexivity. Qed.

Lemma bind_bind {A B C} (m : M A) (k1 : A -> M B) (k2 : B -> M C) (s : state) :
  bind (bind m k1) k2 s = bind m (fun a => bind (k1 a) k2) s.
Proof. unfold bind. destruct (m s); reflexivity. Qed.

Lemma bind_ret_l {A B} (a : A) (k : A -> M B) (s : state) :
  bind (ret a) k s = k a s.
Proof. reflexivity. Qed.

(** ** Integers *)

Lemma wrap_size_t_small (z : Z) :
  0 <= z < size_t_modulus -> wrap_size_t z = z.
Proof. intros Hz. unfold wrap_size_t. apply Z.mod_small. exact Hz. Qed.

Lemma to_long_small (z : Z) : z < long_half -> to_long z = z.
Proof.
  intros Hz. unfold to_long.
  destruct (z <? long_half) eqn:E; [reflexivity | apply Z.ltb_ge in E; lia].
Qed.

Lemma long_half_lt_modulus : long_half < size_t_modulus.
Proof. reflexivity. Qed.

(** ** Fresh addresses *)

Lemma fresh_heap_None (H : gmap positive cell) : H !! fresh (dom H) = None.
Proof. apply not_elem_of_dom, is_fresh. Qed.

Lemma fresh_objs_None (O : gmap nat shared_ptr.t) : O !! fresh (dom O) = None.
Proof. apply not_elem_of_dom, is_fresh. Qed.

Lemma fresh_heap_ne (H : gmap positive cell) (b : positive) (c : cell) :
  H !! b = Some c -> fresh (dom H) <> b.
Proof. intros Hb E. rewrite <- E, fresh_heap_None in Hb. discriminate. Qed.

Lemma fresh_objs_ne (O : gmap nat shared_ptr.t) (h : nat) (o : shared_ptr.t) :
  O !! h = Some o -> fresh (dom O) <> h.
Proof. intros Hh E. rewrite <- E, fresh_objs_None in Hh. discriminate. Qed.

(** ** One step of each primitive, on an explicit state *)

Section Primitives.
Variables (O : gmap nat shared_ptr.t) (H : gmap positive cell)
          (T : list event).

Lemma ret_Ok {A} (a : A) : ret a (State O H T) = Ok a (State O H T).
Proof. reflexivity. Qed.

Lemma read_ptr__Ok (this : nat) (o : shared_ptr.t) :
  O !! this = Some o ->
  read_ptr_ this (State O H T) = Ok (shared_ptr.ptr_ o) (State O H T).
Proof.
  intros E. unfold read_ptr_, bind, this_obj. simpl. rewrite E. reflexivity.
Qed.

Lemma read_control_block_ptr_Ok (this : nat) (o : shared_ptr.t) :
  O !! this = Some o ->
  read_control_block_ptr this (State O H T)
  = Ok (shared_ptr.control_block_ptr o) (State O H T).
Proof.
  intros E. unfold read_control_block_ptr, bind, this_obj. simpl.
  rewrite E. reflexivity.
Qed.

Lemma read_control_block_ptr_UB (this : nat) {B} (k : option positive -> M B) :
  O !! this = None ->
  bind (read_control_block_ptr this) k (State O H T) = UB NoSuchObject.
Proof.
  intros E. unfold read_control_block_ptr, bind, this_obj. simpl.
  rewrite E. reflexivity.
Qed.

Lemma write_ptr__Ok (this : nat) (o : shared_ptr.t) (p : Z) :
  O !! this = Some o ->
  write_ptr_ this p (State O H T)
  = Ok tt (State
      (<[this := shared_ptr.Build p (shared_ptr.control_block_ptr o)]> O)
      H T).
Proof.
  intros E. unfold write_ptr_, bind, this_obj. simpl. rewrite E. reflexivity.
Qed.

Lemma write_control_block_ptr_Ok (this : nat) (o : shared_ptr.t)
      (c : option positive) :
  O !! this = Some o ->
  write_control_block_ptr this c (State O H T)
  = Ok tt (State (<[this := shared_ptr.Build (shared_ptr.ptr_ o) c]> O) H T).
Proof.
  intros E. unfold write_control_block_ptr, bind, this_obj. simpl.
  rewrite E. reflexivity.
Qed.

Lemma shared_load_Ok (b : positive) (cb : ControlBlock.t) :
  H !! b = Some (Live cb) ->
  shared_load b (State O H T)
  = Ok (ControlBlock.shared_refs_ cb) (State O H T).
Proof.
  intros E. unfold shared_load, bind, block_at. simpl. rewrite E. reflexivity.
Qed.

Lemma shared_refs_Ok (b : positive) (cb : ControlBlock.t) :
  H !! b = Some (Live cb) ->
  shared_refs b (State O H T)
  = Ok (ControlBlock.shared_refs_ cb) (State O H T).
Proof. apply shared_load_Ok. Qed.

Lemma shared_refs_Freed (b : positive) :
  H !! b = Some Freed -> shared_refs b (State O H T) = UB UseAfterFree.
Proof.
  intros E. unfold shared_refs, shared_load, bind, block_at. simpl.
  rewrite E. reflexivity.
Qed.

Lemma weak_refs_Ok (b : positive) (cb : ControlBlock.t) :
  H !! b = Some (Live cb) ->
  weak_refs b (State O H T) = Ok (ControlBlock.weak_refs_ cb) (State O H T).
Proof.
  intros E. unfold weak_refs, weak_load, bind, block_at. simpl.
  rewrite E. reflexivity.
Qed.

Lemma shared_exchange_Ok (b : positive) (cb : ControlBlock.t) (v : Z) :
  H !! b = Some (Live cb) ->
  shared_exchange b v (State O H T)
  = Ok (ControlBlock.shared_refs_ cb)
       (State O (<[b := Live (set_shared v cb)]> H) T).
Proof.
  intros E. unfold shared_exchange, store_block, bind, block_at, ret.
  simpl. rewrite E. reflexivity.
Qed.

Lemma increment_shared_Ok (b : positive) (cb : ControlBlock.t) :
  H !! b = Some (Live cb) ->
  increment_shared b (State O H T)
  = Ok tt (State O
      (<[b := Live (set_shared
                      (wrap_size_t (ControlBlock.shared_refs_ cb + 1)) cb)]> H)
      T).
Proof.
  intros E. unfold increment_shared.
  rewrite (bind_Ok _ _ _ _ _ (shared_load_Ok b cb E)).
  rewrite (bind_Ok _ _ _ _ _ (shared_exchange_Ok b cb _ E)).
  reflexivity.
Qed.

Lemma decrement_shared_Ok (b : positive) (cb : ControlBlock.t) :
  H !! b = Some (Live cb) ->
  decrement_shared b (State O H T)
  = Ok tt (State O
      (if ControlBlock.shared_refs_ cb =? 0 then H
       else <[b := Live (set_shared
                           (wrap_size_t (ControlBlock.shared_refs_ cb - 1))
                           cb)]> H)
      T).
Proof.
  intros E. unfold decrement_shared.
  rewrite (bind_Ok _ _ _ _ _ (shared_load_Ok b cb E)).
  destruct (ControlBlock.shared_refs_ cb =? 0); [reflexivity|].
  rewrite (bind_Ok _ _ _ _ _ (shared_load_Ok b cb E)).
  rewrite (bind_Ok _ _ _ _ _ (shared_exchange_Ok b cb _ E)).
  reflexivity.
Qed.

Lemma call_deleter_Ok (b : positive) (cb : ControlBlock.t) :
  H !! b = Some (Live cb) ->
  call_deleter b (State O H T) = Ok tt (State O H (T ++ deleter_events b cb)).
Proof.
  intros E.
  unfold call_deleter, invoke, default_deleter, emit, bind, block_at,
    deleter_events, ret.
  simpl. rewrite E. simpl.
  destruct (ControlBlock.deleter_ptr_ cb);
    [destruct (_ =? nullptr)|]; simpl;
    rewrite <- ?app_assoc; reflexivity.
Qed.

Lemma delete_block_Ok (b : positive) (cb : ControlBlock.t) :
  H !! b = Some (Live cb) ->
  delete_block b (State O H T)
  = Ok tt (State O (<[b := Freed]> H) (T ++ [EvDeleteBlock b])).
Proof. intros E. unfold delete_block. simpl. rewrite E. reflexivity. Qed.

Lemma new_block_Ok (cb : ControlBlock.t) :
  new_block cb (State O H T)
  = Ok (fresh (dom H)) (State O (<[fresh (dom H) := Live cb]> H) T).
Proof. reflexivity. Qed.

Lemma new_obj_Ok :
  new_obj (State O H T)
  = Ok (fresh (dom O))
       (State (<[fresh (dom O) := shared_ptr.Build nullptr None]> O) H T).
Proof. reflexivity. Qed.

Lemma end_obj_Ok (this : nat) :
  end_obj this (State O H T) = Ok tt (State (delete this O) H T).
Proof. reflexivity. Qed.

Lemma deref_Some (b : positive) :
  deref (Some b) (State O H T) = Ok b (State O H T).
Proof. reflexivity. Qed.
End Primitives.

(** Symbolic execution: [step] runs the first primitive of a sequence. *)
Ltac lookup_tac :=
  simpl; rewrite ?lookup_insert_eq;
  repeat (rewrite lookup_insert_ne by done);
  try eassumption; try reflexivity.

Ltac prim :=
  first
    [ eapply read_ptr__Ok
    | eapply read_control_block_ptr_Ok
    | eapply write_ptr__Ok
    | eapply write_control_block_ptr_Ok
    | eapply shared_load_Ok
    | eapply shared_exchange_Ok
    | eapply shared_refs_Ok
    | eapply weak_refs_Ok
    | eapply increment_shared_Ok
    | eapply decrement_shared_Ok
    | eapply call_deleter_Ok
    | eapply delete_block_Ok
    | eapply new_block_Ok
    | eapply new_obj_Ok
    | eapply end_obj_Ok
    | eapply deref_Some
    | eapply ret_Ok ]; lookup_tac.

Ltac step := rewrite ?bind_bind; erewrite bind_Ok by prim; simpl.

Ltac last_step :=
  match goal with
  | |- ?m ?s = _ =>
      let E := fresh in eassert (E : m s = _) by prim; rewrite E; clear E
  end.

Ltac run := repeat step; try last_step.

(** ** Each operation on an explicit state *)

Section Runs.
Variables (O : gmap nat shared_ptr.t) (H : gmap positive cell)
          (T : list event).

Lemma get_Ok (this : nat) (o : shared_ptr.t) :
  O !! this = Some o ->
  get this (State O H T) = Ok (shared_ptr.ptr_ o) (State O H T).
Proof. apply read_ptr__Ok. Qed.

Lemma operator_bool_Ok (this : nat) (o : shared_ptr.t) :
  O !! this = Some o ->
  operator_bool this (State O H T)
  = Ok (bool_decide (is_Some (shared_ptr.control_block_ptr o))) (State O H T).
Proof.
  intros E. unfold operator_bool. step.
  destruct (shared_ptr.control_block_ptr o); reflexivity.
Qed.

Lemma use_count_empty (this : nat) (o : shared_ptr.t) :
  O !! this = Some o ->
  shared_ptr.control_block_ptr o = None ->
  use_count this (State O H T) = Ok 0 (State O H T).
Proof. intros E N. unfold use_count. step. rewrite N. reflexivity. Qed.

Lemma use_count_owning (this : nat) (o : shared_ptr.t) (b : positive)
      (cb : ControlBlock.t) :
  O !! this = Some o ->
  shared_ptr.control_block_ptr o = Some b ->
  H !! b = Some (Live cb) ->
  use_count this (State O H T)
  = Ok (to_long (ControlBlock.shared_refs_ cb)) (State O H T).
Proof.
  intros E N L. unfold use_count, get_shared_cnt. step. rewrite N.
  step. rewrite N. step. step. reflexivity.
Qed.

Lemma use_count_dangling (this : nat) (o : shared_ptr.t) (b : positive) :
  O !! this = Some o ->
  shared_ptr.control_block_ptr o = Some b ->
  H !! b = Some Freed ->
  use_count this (State O H T) = UB UseAfterFree.
Proof.
  intros E N L. unfold use_count, get_shared_cnt. step. rewrite N.
  step. rewrite N. step. apply bind_UB. apply shared_refs_Freed. exact L.
Qed.

Lemma shared_ptr_ctor_null :
  shared_ptr_ctor nullptr (State O H T)
  = Ok (fresh (dom O))
       (State (<[fresh (dom O) := shared_ptr.Build nullptr None]> O) H T).
Proof.
  unfold shared_ptr_ctor. step. step. step. rewrite insert_insert_eq.
  reflexivity.
Qed.

Lemma shared_ptr_ctor_nonnull (p : Z) :
  p <> nullptr ->
  shared_ptr_ctor p (State O H T)
  = Ok (fresh (dom O))
       (State (<[fresh (dom O) := shared_ptr.Build p (Some (fresh (dom H)))]> O)
              (<[fresh (dom H) := Live (ControlBlock_ctor p)]> H) T).
Proof.
  intros Hp. unfold shared_ptr_ctor. step. step. step.
  apply Z.eqb_neq in Hp. rewrite Hp. step. step.
  rewrite !insert_insert_eq. reflexivity.
Qed.

Lemma copy_ctor_owning (other : nat) (o : shared_ptr.t) (b : positive)
      (cb : ControlBlock.t) :
  O !! other = Some o ->
  shared_ptr.control_block_ptr o = Some b ->
  H !! b = Some (Live cb) ->
  copy_ctor other (State O H T)
  = Ok (fresh (dom O))
       (State (<[fresh (dom O) := o]> O)
              (<[b := Live (set_shared
                   (wrap_size_t (ControlBlock.shared_refs_ cb + 1)) cb)]> H)
              T).
Proof.
  intros E N L. unfold copy_ctor.
  pose proof (fresh_objs_ne O other o E) as Hne.
  step. step. step. step. step. step. rewrite N. step. step.
  rewrite !insert_insert_eq. destruct o; simpl in *; subst. reflexivity.
Qed.

Lemma copy_ctor_empty (other : nat) (o : shared_ptr.t) :
  O !! other = Some o ->
  shared_ptr.control_block_ptr o = None ->
  copy_ctor other (State O H T) = UB NullDereference.
Proof.
  intros E N. unfold copy_ctor.
  pose proof (fresh_objs_ne O other o E) as Hne.
  step. step. step. step. step. step. rewrite N. reflexivity.
Qed.

Lemma copy_assign_self (this : nat) (s : state) :
  copy_assign this this s = Ok tt s.
Proof. unfold copy_assign. rewrite Nat.eqb_refl. reflexivity. Qed.

(** Copy assignment onto a handle that is not the last owner of its block. *)
Lemma copy_assign_shared (this other : nat) (o oo : shared_ptr.t)
      (b : positive) (cb : ControlBlock.t) :
  this <> other ->
  O !! this = Some o ->
  shared_ptr.control_block_ptr o = Some b ->
  H !! b = Some (Live cb) ->
  ControlBlock.shared_refs_ cb <> 1 ->
  O !! other = Some oo ->
  copy_assign this other (State O H T)
  = match shared_ptr.control_block_ptr oo with
    | None => Ok tt (State (<[this := oo]> O) H T)
    | Some b' =>
        match H !! b' with
        | Some (Live cb') =>
            Ok tt (State (<[this := oo]> O)
              (<[b' := Live (set_shared
                   (wrap_size_t (ControlBlock.shared_refs_ cb' + 1)) cb')]> H)
              T)
        | Some Freed => UB UseAfterFree
        | None => UB WildPointer
        end
    end.
Proof.
  intros Hne E N L C E'. unfold copy_assign.
  apply Nat.eqb_neq in Hne as Hneb. rewrite Hneb.
  step. rewrite N. step. apply Z.eqb_neq in C. rewrite C.
  step. step. step. step. step. step.
  rewrite insert_insert_eq.
  destruct oo as [q [b'|]]; simpl.
  - destruct (H !! b') as [[cb'|]|] eqn:L'.
    + last_step. reflexivity.
    + unfold increment_shared, shared_load, block_at, bind. simpl.
      rewrite L'. reflexivity.
    + unfold increment_shared, shared_load, block_at, bind. simpl.
      rewrite L'. reflexivity.
  - reflexivity.
Qed.

(** Copy assignment onto an empty handle from an owner. *)
Lemma copy_assign_onto_empty (this other : nat) (o oo : shared_ptr.t)
      (b : positive) (cb : ControlBlock.t) :
  this <> other ->
  O !! this = Some o ->
  shared_ptr.control_block_ptr o = None ->
  O !! other = Some oo ->
  shared_ptr.control_block_ptr oo = Some b ->
  H !! b = Some (Live cb) ->
  copy_assign this other (State O H T)
  = Ok tt (State (<[this := oo]> O)
      (<[b := Live (set_shared
                      (wrap_size_t (ControlBlock.shared_refs_ cb + 1)) cb)]> H)
      T).
Proof.
  intros Hne E N E' N' L. unfold copy_assign.
  apply Nat.eqb_neq in Hne as Hneb. rewrite Hneb.
  step. rewrite N. run. rewrite N'. run.
  rewrite insert_insert_eq. destruct oo; simpl in *; subst. reflexivity.
Qed.

Lemma reset_owning (this : nat) (o : shared_ptr.t) (b : positive)
      (cb : ControlBlock.t) :
  O !! this = Some o ->
  shared_ptr.control_block_ptr o = Some b ->
  H !! b = Some (Live cb) ->
  reset this (State O H T)
  = Ok tt (State (<[this := shared_ptr.Build (shared_ptr.ptr_ o) None]> O)
                 (<[b := Freed]> H)
                 (T ++ deleter_events b cb ++ [EvDeleteBlock b])).
Proof.
  intros E N L. unfold reset. step. rewrite N. step. step.
  last_step. rewrite <- app_assoc. reflexivity.
Qed.

Lemma reset_empty (this : nat) (o : shared_ptr.t) :
  O !! this = Some o ->
  shared_ptr.control_block_ptr o = None ->
  reset this (State O H T) = Ok tt (State O H T).
Proof. intros E N. unfold reset. step. rewrite N. reflexivity. Qed.

Lemma reset_ptr_owning (this : nat) (o : shared_ptr.t) (b : positive)
      (cb : ControlBlock.t) (q : Z) :
  O !! this = Some o ->
  shared_ptr.control_block_ptr o = Some b ->
  H !! b = Some (Live cb) ->
  reset_ptr this q (State O H T)
  = Ok tt (State
      (<[this := shared_ptr.Build q (Some (fresh (dom (<[b := Freed]> H))))]> O)
      (<[fresh (dom (<[b := Freed]> H)) := Live (ControlBlock_ctor q)]>
         (<[b := Freed]> H))
      (T ++ deleter_events b cb ++ [EvDeleteBlock b])).
Proof.
  intros E N L. unfold reset_ptr. step. rewrite N. step. step. step. step.
  step. last_step. rewrite !insert_insert_eq, <- app_assoc. reflexivity.
Qed.

Lemma reset_ptr_empty (this : nat) (o : shared_ptr.t) (q : Z) :
  O !! this = Some o ->
  shared_ptr.control_block_ptr o = None ->
  reset_ptr this q (State O H T)
  = Ok tt (State
      (<[this := shared_ptr.Build q (Some (fresh (dom H)))]> O)
      (<[fresh (dom H) := Live (ControlBlock_ctor q)]> H)
      T).
Proof.
  intros E N. unfold reset_ptr. step. rewrite N. run.
  rewrite !insert_insert_eq. reflexivity.
Qed.

(** The destructor of the last owner, with no weak reference. *)
Lemma shared_ptr_dtor_last (this : nat) (o : shared_ptr.t) (b : positive)
      (cb : ControlBlock.t) :
  O !! this = Some o ->
  shared_ptr.control_block_ptr o = Some b ->
  H !! b = Some (Live cb) ->
  ControlBlock.shared_refs_ cb = 1 ->
  ControlBlock.weak_refs_ cb = 0 ->
  shared_ptr_dtor this (State O H T)
  = Ok tt (State (delete this O) (<[b := Freed]> H)
                 (T ++ deleter_events b cb ++ [EvDeleteBlock b])).
Proof.
  intros E N L C W. unfold shared_ptr_dtor, release. step. rewrite N.
  step. rewrite C. simpl. step. step. step. step. rewrite W. simpl.
  step. last_step.
  rewrite insert_insert_eq, <- app_assoc. reflexivity.
Qed.

(** The destructor of an owner that is not the last one. *)
Lemma shared_ptr_dtor_shared (this : nat) (o : shared_ptr.t) (b : positive)
      (cb : ControlBlock.t) :
  O !! this = Some o ->
  shared_ptr.control_block_ptr o = Some b ->
  H !! b = Some (Live cb) ->
  1 < ControlBlock.shared_refs_ cb < size_t_modulus ->
  shared_ptr_dtor this (State O H T)
  = Ok tt (State (delete this O)
      (<[b := Live (set_shared (ControlBlock.shared_refs_ cb - 1) cb)]> H)
      T).
Proof.
  intros E N L C. unfold shared_ptr_dtor, release. step. rewrite N.
  assert (E0 : (ControlBlock.shared_refs_ cb =? 0) = false)
    by (apply Z.eqb_neq; lia).
  assert (E1 : (ControlBlock.shared_refs_ cb - 1 =? 0) = false)
    by (apply Z.eqb_neq; lia).
  step. rewrite E0, wrap_size_t_small by lia.
  step. rewrite E1. step. step. rewrite E1. run.
  rewrite ?insert_insert_eq. reflexivity.
Qed.

(** Move assignment between two distinct handles, onto an empty one. *)
Lemma move_assign_onto_empty (this other : nat) (o oo : shared_ptr.t) :
  this <> other ->
  O !! this = Some o ->
  shared_ptr.control_block_ptr o = None ->
  O !! other = Some oo ->
  move_assign this other (State O H T)
  = Ok tt (State (<[other := shared_ptr.Build nullptr None]>
                    (<[this := oo]> O)) H T).
Proof.
  intros Hne E N E'. unfold move_assign. step. rewrite N.
  step. step. step. step. step. step. last_step.
  rewrite !insert_insert_eq. destruct oo; reflexivity.
Qed.

(** Move assignment between two distinct handles, onto an owner: the
    block of the destination is released whatever its count. *)
Lemma move_assign_onto_owner (this other : nat) (o oo : shared_ptr.t)
      (b : positive) (cb : ControlBlock.t) :
  this <> other ->
  O !! this = Some o ->
  shared_ptr.control_block_ptr o = Some b ->
  H !! b = Some (Live cb) ->
  O !! other = Some oo ->
  move_assign this other (State O H T)
  = Ok tt (State (<[other := shared_ptr.Build nullptr None]>
                    (<[this := oo]> O))
                 (<[b := Freed]> H)
                 (T ++ deleter_events b cb ++ [EvDeleteBlock b])).
Proof.
  intros Hne E N L E'. unfold move_assign. step. rewrite N.
  step. step. step. step. step. step. step. step. last_step.
  rewrite !insert_insert_eq, <- app_assoc. destruct oo; reflexivity.
Qed.
End Runs.

(** ** What the accessors report *)

Lemma observe_owner (O : gmap nat shared_ptr.t) (H : gmap positive cell)
      (T : list event) (this : nat) (p : Z) (b : positive) (cb : ControlBlock.t) :
  O !! this = Some (shared_ptr.Build p (Some b)) ->
  H !! b = Some (Live cb) ->
  operator_bool this (State O H T) = Ok true (State O H T)
  /\ use_count this (State O H T)
     = Ok (to_long (ControlBlock.shared_refs_ cb)) (State O H T)
  /\ get this (State O H T) = Ok p (State O H T).
Proof.
  intros E L. split; [|split].
  - rewrite (operator_bool_Ok O H T this _ E). reflexivity.
  - apply (use_count_owning O H T this _ b cb E eq_refl L).
  - apply (get_Ok O H T this _ E).
Qed.

Lemma observe_empty (O : gmap nat shared_ptr.t) (H : gmap positive cell)
      (T : list event) (this : nat) (p : Z) :
  O !! this = Some (shared_ptr.Build p None) ->
  operator_bool this (State O H T) = Ok false (State O H T)
  /\ use_count this (State O H T) = Ok 0 (State O H T)
  /\ get this (State O H T) = Ok p (State O H T).
Proof.
  intros E. split; [|split].
  - rewrite (operator_bool_Ok O H T this _ E). reflexivity.
  - apply (use_count_empty O H T this _ E eq_refl).
  - apply (get_Ok O H T this _ E).
Qed.

(** Move assignment between two distinct handles onto an empty one: the
    destination reports the payload and the count of the source, no counter
    has changed, and the source is empty. *)
Lemma move_assign_transfers (O : gmap nat shared_ptr.t)
      (H : gmap positive cell) (T : list event) (this other : nat)
      (o : shared_ptr.t) (p : Z) (b : positive) (cb : ControlBlock.t) :
  this <> other ->
  O !! this = Some o ->
  shared_ptr.control_block_ptr o = None ->
  O !! other = Some (shared_ptr.Build p (Some b)) ->
  H !! b = Some (Live cb) ->
  exists s',
    move_assign this other (State O H T) = Ok tt s'
    /\ heap s' = H
    /\ trace s' = T
    /\ get this s' = Ok p s'
    /\ use_count this s' = Ok (to_long (ControlBlock.shared_refs_ cb)) s'
    /\ operator_bool other s' = Ok false s'
    /\ get other s' = Ok nullptr s'
    /\ use_count other s' = Ok 0 s'.
Proof.
  intros Hne E N E' L.
  eexists. split; [apply (move_assign_onto_empty O H T this other o _ Hne E N E')|].
  cbn [heap trace]. split; [reflexivity|]. split; [reflexivity|].
  set (O' := <[other := _]> _).
  assert (Et : O' !! this = Some (shared_ptr.Build p (Some b)))
    by (unfold O'; rewrite lookup_insert_ne by congruence; apply lookup_insert_eq).
  assert (Eo : O' !! other = Some (shared_ptr.Build nullptr None))
    by apply lookup_insert_eq.
  destruct (observe_owner O' H T this p b cb Et L) as (_ & U1 & G1).
  destruct (observe_empty O' H T other nullptr Eo) as (B2 & U2 & G2).
  repeat split; assumption.
Qed.

(** ** Counting deleter calls *)

Lemma calls_in_app (b : positive) (T T' : list event) :
  calls_in b (T ++ T') = (calls_in b T + calls_in b T')%nat.
Proof. unfold calls_in. rewrite filter_app, length_app. reflexivity. Qed.

Lemma calls_in_release (b : positive) (cb : ControlBlock.t) :
  calls_in b (deleter_events b cb ++ [EvDeleteBlock b]) = 1%nat.
Proof.
  unfold calls_in, deleter_events. simpl.
  rewrite filter_cons_True by (simpl; apply Pos.eqb_refl).
  destruct (ControlBlock.deleter_ptr_ cb); [destruct (_ =? nullptr)|];
    reflexivity.
Qed.

(** ** The concrete states are reachable *)

Lemma one_owner_reachable :
  (shared_ptr_ctor 100 ;; ret tt) empty_state = Ok tt one_owner.
Proof. vm_compute. reflexivity. Qed.

Lemma two_owners_reachable :
  (h1 <- shared_ptr_ctor 100 ;; copy_ctor h1 ;; shared_ptr_ctor 200 ;; ret tt)
    empty_state
  = Ok tt two_owners.
Proof. vm_compute. reflexivity. Qed.


Lemma two_copies_reachable :
  (h1 <- shared_ptr_ctor 100 ;; copy_ctor h1 ;; ret tt) empty_state
  = Ok tt two_copies.
Proof. vm_compute. reflexivity. Qed.

Lemma one_empty_reachable :
  (shared_ptr_ctor nullptr ;; ret tt) empty_state = Ok tt one_empty.
Proof. vm_compute. reflexivity. Qed.

(** ** Families of copies *)

Lemma nth_elem_of (fam : list nat) (i h : nat) : h ∈ fam -> nth i fam h ∈ fam.
Proof.
  intros Hh. destruct (Nat.lt_ge_cases i (length fam)) as [Hi|Hi].
  - apply list_elem_of_In, nth_In. exact Hi.
  - rewrite nth_overflow by exact Hi. exact Hh.
Qed.

Lemma make_copy_owning (O : gmap nat shared_ptr.t) (H : gmap positive cell)
      (T : list event) (w : copy_how) (src : nat) (o : shared_ptr.t)
      (b : positive) (cb : ControlBlock.t) :
  O !! src = Some o ->
  shared_ptr.control_block_ptr o = Some b ->
  H !! b = Some (Live cb) ->
  make_copy w src (State O H T)
  = Ok (fresh (dom O))
       (State (<[fresh (dom O) := o]> O)
              (<[b := Live (set_shared
                   (wrap_size_t (ControlBlock.shared_refs_ cb + 1)) cb)]> H)
              T).
Proof.
  intros E N L. destruct w; cbn [make_copy].
  - apply (copy_ctor_owning O H T src o b cb E N L).
  - pose proof (fresh_objs_ne O src o E) as Hne.
    rewrite (bind_Ok _ _ _ _ _ (shared_ptr_ctor_null O H T)).
    erewrite bind_Ok.
    2: { apply (copy_assign_onto_empty _ H T (fresh (dom O)) src
                  (shared_ptr.Build nullptr None) o b cb Hne).
         - apply lookup_insert_eq.
         - reflexivity.
         - rewrite lookup_insert_ne by exact Hne. exact E.
         - exact N.
         - exact L. }
    rewrite insert_insert_eq. reflexivity.
Qed.

Lemma family_copy (O : gmap nat shared_ptr.t) (H : gmap positive cell)
      (T : list event) (b : positive) (fam : list nat) (w : copy_how)
      (src : nat) :
  family O H b fam ->
  src ∈ fam ->
  Z.of_nat (length fam) + 1 < long_half ->
  exists O' H',
    make_copy w src (State O H T) = Ok (fresh (dom O)) (State O' H' T)
    /\ family O' H' b (fresh (dom O) :: fam).
Proof.
  intros (ND & Hown & cb & L & C) Hsrc Hlt.
  destruct (Hown src Hsrc) as [p E].
  eexists _, _. split.
  - apply (make_copy_owning O H T w src _ b cb E eq_refl L).
  - split; [|split].
    + constructor; [|exact ND].
      intros Hin. destruct (Hown _ Hin) as [q Eq].
      rewrite fresh_objs_None in Eq. discriminate.
    + intros c Hc. apply elem_of_cons in Hc as [->|Hc].
      * exists p. apply lookup_insert_eq.
      * destruct (Hown c Hc) as [q Eq]. exists q.
        rewrite lookup_insert_ne; [exact Eq|].
        apply (fresh_objs_ne O c _ Eq).
    + eexists. split; [apply lookup_insert_eq|].
      cbn [set_shared ControlBlock.shared_refs_ length].
      rewrite C, wrap_size_t_small; [lia|].
      pose proof long_half_lt_modulus. lia.
Qed.

Lemma make_copies_family (picks : list (copy_how * nat)) (h : nat) :
  forall (fam : list nat) (O : gmap nat shared_ptr.t) (H : gmap positive cell)
         (T : list event) (b : positive),
    family O H b fam ->
    h ∈ fam ->
    Z.of_nat (length fam) + Z.of_nat (length picks) < long_half ->
    exists fam' O' H',
      make_copies picks h fam (State O H T) = Ok fam' (State O' H' T)
      /\ family O' H' b fam'
      /\ length fam' = (length fam + length picks)%nat.
Proof.
  induction picks as [|[w i] picks IH]; intros fam O H T b F Hh Hlt.
  - exists fam, O, H. simpl. split; [reflexivity|]. split; [exact F|lia].
  - cbn [length] in Hlt.
    destruct (family_copy O H T b fam w (nth i fam h) F (nth_elem_of fam i h Hh))
      as (O1 & H1 & E1 & F1); [lia|].
    destruct (IH (fresh (dom O) :: fam) O1 H1 T b F1)
      as (fam' & O' & H' & E' & F' & Len).
    + apply elem_of_cons. right. exact Hh.
    + cbn [length]. lia.
    + exists fam', O', H'. split; [|split; [exact F'|cbn [length] in *; lia]].
      cbn [make_copies]. rewrite (bind_Ok _ _ _ _ _ E1). exact E'.
Qed.

Lemma family_use_count (O : gmap nat shared_ptr.t) (H : gmap positive cell)
      (T : list event) (b : positive) (fam : list nat) (c : nat) :
  family O H b fam ->
  Z.of_nat (length fam) < long_half ->
  c ∈ fam ->
  use_count c (State O H T) = Ok (Z.of_nat (length fam)) (State O H T).
Proof.
  intros (_ & Hown & cb & L & C) Hlt Hc.
  destruct (Hown c Hc) as [p E].
  rewrite (use_count_owning O H T c _ b cb E eq_refl L), C.
  rewrite to_long_small by exact Hlt. reflexivity.
Qed.


(** ** One thread alone runs the sequential destructor *)

Lemma run_schedule_alone (sched : list nat) (b : positive) (pc : dtor_pc) :
  run_schedule (0%nat :: sched) [(b, pc)]
  = (pc' <- dtor_step b pc ;; run_schedule sched [(b, pc')]).
Proof. reflexivity. Qed.

Lemma shared_load_not_live (b : positive) (s : state) :
  (forall cb, heap s !! b <> Some (Live cb)) ->
  exists e, shared_load b s = UB e.
Proof.
  intros N. unfold shared_load, bind, block_at.
  destruct (heap s !! b) as [[cb|]|] eqn:L.
  - destruct (N cb eq_refl).
  - exists UseAfterFree. reflexivity.
  - exists WildPointer. reflexivity.
Qed.

Ltac go :=
  repeat first
    [ progress (rewrite ?run_schedule_alone; cbn [dtor_step])
    | step
    | match goal with
      | E : (?c =? 0) = _ |- context [?c =? 0] => rewrite E
      end ].

Lemma release_by_steps_eq (b : positive) (s : state) :
  release_by_steps b s = release b s.
Proof.
  unfold release_by_steps, release, decrement_shared. cbn [repeat].
  rewrite run_schedule_alone. cbn [dtor_step].
  destruct (heap s !! b) as [[cb|]|] eqn:L.
  2,3: destruct (shared_load_not_live b s) as [e E];
       [intros cb' E'; rewrite L in E'; discriminate|];
       rewrite !bind_bind, !(bind_UB _ _ _ _ E); reflexivity.
  destruct s as [O H T]. cbn [heap] in L.
  destruct (ControlBlock.weak_refs_ cb =? 0) eqn:W0;
    destruct (ControlBlock.shared_refs_ cb =? 0) eqn:C0;
    try destruct (wrap_size_t (ControlBlock.shared_refs_ cb - 1) =? 0) eqn:C1;
    go; try reflexivity;
    symmetry; last_step; rewrite ?insert_insert_eq; reflexivity.
Qed.


(** Another interleaving of the same two destructors: both threads finish,
    the count is left at 1 and the deleter is never called. *)
Lemma lost_update_leaks :
  exists s,
    run_schedule lost_update two_threads two_owners
    = Ok [(1%positive, AtEnd); (1%positive, AtEnd)] s
    /\ live_count 1 s = Some 1
    /\ deleter_calls 1 s = 0%nat.
Proof.
  eexists. split; [vm_compute; reflexivity|].
  repeat split; vm_compute; reflexivity.
Qed.

(** ** Copies made into new handles

    A handle just constructed over a non-null pointer reports 1.  When
    further handles are made from it or from its copies, by copy
    construction or by copy assignment to a new empty handle, and no handle
    is destroyed or assigned to a second time, every one of the [N] handles
    that then exist reports [N]. *)
Lemma fresh_copies_report_their_number (s : state) (p : Z)
      (picks : list (copy_how * nat)) :
  p <> nullptr ->
  Z.of_nat (length picks) + 1 < long_half ->
  exists h s1,
    shared_ptr_ctor p s = Ok h s1
    /\ use_count h s1 = Ok 1 s1
    /\ exists fam s2,
        make_copies picks h [h] s1 = Ok fam s2
        /\ NoDup fam
        /\ length fam = S (length picks)
        /\ forall c, c ∈ fam -> use_count c s2 = Ok (Z.of_nat (length fam)) s2.
Proof.
  destruct s as [O H T]. intros Hp Hlt.
  eexists _, _. split; [apply (shared_ptr_ctor_nonnull O H T p Hp)|].
  set (h := fresh (dom O)). set (b := fresh (dom H)).
  set (O1 := <[h := shared_ptr.Build p (Some b)]> O).
  set (H1 := <[b := Live (ControlBlock_ctor p)]> H).
  assert (F : family O1 H1 b [h]).
  { split; [|split].
    - apply NoDup_singleton.
    - intros c Hc. apply list_elem_of_singleton in Hc as ->.
      exists p. apply lookup_insert_eq.
    - exists (ControlBlock_ctor p). split; [apply lookup_insert_eq|reflexivity]. }
  split.
  - apply (family_use_count O1 H1 T b [h] h F); [reflexivity|].
    apply list_elem_of_singleton. reflexivity.
  - destruct (make_copies_family picks h [h] O1 H1 T b F) as (fam & O2 & H2 & E2 & F2 & Len).
    + apply list_elem_of_singleton. reflexivity.
    + cbn [length]. lia.
    + exists fam, (State O2 H2 T). split; [exact E2|].
      split; [apply F2|]. split; [exact Len|].
      intros c Hc. apply (family_use_count O2 H2 T b fam c F2); [|exact Hc].
      rewrite Len. cbn [length]. lia.
Qed.

(** ** Copy assignment onto a handle that shares its block

    Copy assignment onto a handle that owns a block of count above 1, from
    another handle, runs no deleter and releases no block, and the count of
    the old block is not decremented.  If the source is empty or owns
    another block, the old block is as it was and every other owner reads
    the same [use_count()] as before; if the source owns the same block,
    the count of that block is incremented. *)
Lemma copy_assign_onto_shared_owner (this other : nat) (s : state)
        (o oo : shared_ptr.t) (b : positive) (cb : ControlBlock.t) :
  this <> other ->
  objs s !! this = Some o ->
  shared_ptr.control_block_ptr o = Some b ->
  heap s !! b = Some (Live cb) ->
  1 < ControlBlock.shared_refs_ cb ->
  objs s !! other = Some oo ->
  (forall b', shared_ptr.control_block_ptr oo = Some b' ->
              exists cb', heap s !! b' = Some (Live cb')) ->
  exists s',
    copy_assign this other s = Ok tt s'
    /\ trace s' = trace s
    /\ (forall b0 c, heap s !! b0 = Some (Live c) ->
                     exists c', heap s' !! b0 = Some (Live c'))
    /\ heap s' !! b
       = Some (Live (if decide (shared_ptr.control_block_ptr oo = Some b)
                     then set_shared
                            (wrap_size_t (ControlBlock.shared_refs_ cb + 1)) cb
                     else cb))
    /\ (shared_ptr.control_block_ptr oo <> Some b ->
        forall h o', h <> this ->
          objs s !! h = Some o' ->
          shared_ptr.control_block_ptr o' = Some b ->
          objs s' !! h = Some o'
          /\ use_count h s = Ok (to_long (ControlBlock.shared_refs_ cb)) s
          /\ use_count h s' = Ok (to_long (ControlBlock.shared_refs_ cb)) s').
Proof.
  destruct s as [O H T]. cbn [objs heap trace].
  intros Hne E N L C E' Hlive.
  assert (C1 : ControlBlock.shared_refs_ cb <> 1) by lia.
  pose proof (copy_assign_shared O H T this other o oo b cb Hne E N L C1 E') as R.
  destruct (shared_ptr.control_block_ptr oo) as [b'|] eqn:N'.
  - destruct (Hlive b' eq_refl) as [cb' L']. rewrite L' in R.
    eexists. split; [exact R|]. cbn [objs heap trace].
    split; [reflexivity|]. split; [|split].
    + intros b0 c L0. destruct (decide (b' = b0)) as [->|Hb].
      * eexists. apply lookup_insert_eq.
      * exists c. rewrite lookup_insert_ne by exact Hb. exact L0.
    + destruct (decide (Some b' = Some b)) as [Eq|Nq].
      * injection Eq as ->. rewrite L in L'. injection L' as <-.
        apply lookup_insert_eq.
      * rewrite lookup_insert_ne by congruence. exact L.
    + intros Nq h o' Hh Eh Nh.
      assert (Eh' : <[this := oo]> O !! h = Some o')
        by (rewrite lookup_insert_ne by congruence; exact Eh).
      assert (L2 : <[b' := Live (set_shared
                      (wrap_size_t (ControlBlock.shared_refs_ cb' + 1)) cb')]> H
                   !! b = Some (Live cb))
        by (rewrite lookup_insert_ne by congruence; exact L).
      split; [exact Eh'|]. split.
      * apply (use_count_owning O H T h o' b cb Eh Nh L).
      * apply (use_count_owning _ _ T h o' b cb Eh' Nh L2).
  - eexists. split; [exact R|]. cbn [objs heap trace].
    split; [reflexivity|]. split; [|split].
    + intros b0 c L0. exists c. exact L0.
    + destruct (decide (None = Some b)) as [Eq|_]; [discriminate|]. exact L.
    + intros _ h o' Hh Eh Nh.
      assert (Eh' : <[this := oo]> O !! h = Some o')
        by (rewrite lookup_insert_ne by congruence; exact Eh).
      split; [exact Eh'|]. split.
      * apply (use_count_owning O H T h o' b cb Eh Nh L).
      * apply (use_count_owning _ H T h o' b cb Eh' Nh L).
Qed.

(** ** Owners of a block *)

(** Two distinct handles on one block make at least two owners. *)
Lemma owners_two (b : positive) (O : gmap nat shared_ptr.t)
      (H : gmap positive cell) (T : list event) (h1 h2 : nat)
      (o1 o2 : shared_ptr.t) :
  h1 <> h2 ->
  O !! h1 = Some o1 ->
  shared_ptr.control_block_ptr o1 = Some b ->
  O !! h2 = Some o2 ->
  shared_ptr.control_block_ptr o2 = Some b ->
  (2 <= owners b (State O H T))%nat.
Proof.
  intros Hne E1 N1 E2 N2. unfold owners. cbn [objs].
  set (m := filter _ O).
  assert (M1 : m !! h1 = Some o1)
    by (apply map_lookup_filter_Some_2; [exact E1 | exact N1]).
  assert (M2 : delete h1 m !! h2 = Some o2).
  { rewrite lookup_delete_ne by exact Hne.
    apply map_lookup_filter_Some_2; [exact E2 | exact N2]. }
  rewrite <- (insert_delete_id m h1 o1 M1).
  rewrite map_size_insert_None by apply lookup_delete_eq.
  destruct (size (delete h1 m)) eqn:Sz; [|lia].
  apply map_size_empty_inv in Sz. rewrite Sz, lookup_empty in M2.
  discriminate.
Qed.

(** Pointing a handle of block [b] to block [b] again changes neither the
    handles that exist nor the owners of [b]. *)
Lemma owners_reassign (b : positive) (O : gmap nat shared_ptr.t)
      (H H' : gmap positive cell) (T T' : list event) (h : nat)
      (o o' : shared_ptr.t) :
  O !! h = Some o ->
  shared_ptr.control_block_ptr o = Some b ->
  shared_ptr.control_block_ptr o' = Some b ->
  owners b (State (<[h := o']> O) H' T') = owners b (State O H T).
Proof.
  intros E N N'. unfold owners. cbn [objs].
  rewrite map_filter_insert_True by exact N'.
  apply map_size_insert_Some. exists o.
  apply map_lookup_filter_Some_2; [exact E | exact N].
Qed.


(* ================================================================== *)
(** * The claims *)

(** C1 (code defect).  The claim: once the last handle referencing a
    control block is destroyed, reset or overwritten by assignment, the
    stored deleter has run exactly once.  The code: copy assignment onto a
    handle that is not the last owner of its block adopts the source without
    decrementing the old count.  After [a(p); b(a); c(q); b = c;] and the
    destruction of [a], [b] and [c], no handle is left, the block of [p] is
    still allocated with count 1, and its deleter has run zero times (the
    deleter of the block of [q] has run once). *)
Theorem C1_overwritten_copy_never_released :
  exists s,
    overwritten_copy_scenario empty_state = Ok tt s
    /\ objs s = ∅
    /\ owners 1 s = 0%nat
    /\ live_count 1 s = Some 1
    /\ deleter_calls 1 s = 0%nat
    /\ deleter_calls 2 s = 1%nat.
Proof.
  eexists. split; [vm_compute; reflexivity|].
  repeat split; vm_compute; reflexivity.
Qed.


(** C2 (code defect).  The claim: moving a non-empty handle, by move
    construction or move assignment, leaves the destination with the
    original payload and count, no counter changed, and the source empty.
    The code: initialising a handle from an rvalue runs the copy
    constructor.  For a source owning a live block of count [n], the new
    handle and the source both report [n + 1], and the source still converts
    to [true] and still returns its payload from [get()]. *)
Theorem C2_move_construction_copies (other : nat) (s : state) (p : Z)
        (b : positive) (cb : ControlBlock.t) :
  objs s !! other = Some (shared_ptr.Build p (Some b)) ->
  heap s !! b = Some (Live cb) ->
  0 <= ControlBlock.shared_refs_ cb ->
  ControlBlock.shared_refs_ cb + 1 < long_half ->
  exists h s',
    move_construct other s = Ok h s'
    /\ h <> other
    /\ use_count other s = Ok (ControlBlock.shared_refs_ cb) s
    /\ operator_bool other s' = Ok true s'
    /\ get other s' = Ok p s'
    /\ use_count other s' = Ok (ControlBlock.shared_refs_ cb + 1) s'
    /\ get h s' = Ok p s'
    /\ use_count h s' = Ok (ControlBlock.shared_refs_ cb + 1) s'.
Proof.
  destruct s as [O H T]. cbn [objs heap]. intros E L C0 C1.
  pose proof long_half_lt_modulus as LM.
  pose proof (fresh_objs_ne O other _ E) as Hne.
  eexists _, _. split; [apply (copy_ctor_owning O H T other _ b cb E eq_refl L)|].
  split; [exact Hne|].
  split.
  { rewrite (use_count_owning O H T other _ b cb E eq_refl L).
    rewrite to_long_small by lia. reflexivity. }
  rewrite wrap_size_t_small by lia.
  set (cb' := set_shared (ControlBlock.shared_refs_ cb + 1) cb).
  set (O' := <[fresh (dom O) := _]> O). set (H' := <[b := Live cb']> H).
  assert (Eo : O' !! other = Some (shared_ptr.Build p (Some b)))
    by (unfold O'; rewrite lookup_insert_ne by exact Hne; exact E).
  assert (Eh : O' !! fresh (dom O) = Some (shared_ptr.Build p (Some b)))
    by apply lookup_insert_eq.
  assert (L' : H' !! b = Some (Live cb')) by apply lookup_insert_eq.
  assert (TL : to_long (ControlBlock.shared_refs_ cb') = ControlBlock.shared_refs_ cb + 1)
    by (apply to_long_small; exact C1).
  destruct (observe_owner O' H' T other p b cb' Eo L') as (B1 & U1 & G1).
  destruct (observe_owner O' H' T _ p b cb' Eh L') as (B2 & U2 & G2).
  rewrite TL in U1, U2. repeat split; assumption.
Qed.

Lemma C2_witness :
  exists h s',
    move_construct 0 one_owner = Ok h s'
    /\ h <> 0%nat
    /\ use_count 0 one_owner = Ok 1 one_owner
    /\ operator_bool 0 s' = Ok true s'
    /\ get 0 s' = Ok 100 s'
    /\ use_count 0 s' = Ok 2 s'
    /\ get h s' = Ok 100 s'
    /\ use_count h s' = Ok 2 s'.
Proof.
  apply (C2_move_construction_copies 0 one_owner 100 1 (ControlBlock_ctor 100));
    [reflexivity | reflexivity | discriminate | reflexivity].
Defined.


(** C3 (code defect).  The claim: copy-constructing from an empty handle
    yields an empty handle and dereferences no control block.  The code:
    the copy constructor calls [control_block_ptr->increment_shared()]
    without a null test, so copying an empty handle dereferences a null
    pointer. *)
Theorem C3_copy_of_empty_dereferences_null (other : nat) (s : state)
        (o : shared_ptr.t) :
  objs s !! other = Some o ->
  shared_ptr.control_block_ptr o = None ->
  copy_ctor other s = UB NullDereference.
Proof.
  destruct s as [O H T]. simpl. apply copy_ctor_empty.
Qed.

Lemma C3_witness : copy_ctor 0 one_empty = UB NullDereference.
Proof.
  apply (C3_copy_of_empty_dereferences_null 0 one_empty
           (shared_ptr.Build nullptr None)); reflexivity.
Defined.


(** C4 (code defect).  The claim: move assignment onto a handle that owns a
    control block releases the payload and the block if and only if that
    handle was the sole owner.  The code: move assignment calls the deleter
    and deletes the block of the destination whatever its count.  With a
    count above 1 the block is freed and its deleter has run once more,
    and every other handle still pointing to it is left dangling
    ([use_count()] on it reads freed memory). *)
Theorem C4_move_assign_releases_shared_block (this other : nat) (s : state)
        (o oo : shared_ptr.t) (b : positive) (cb : ControlBlock.t) :
  this <> other ->
  objs s !! this = Some o ->
  shared_ptr.control_block_ptr o = Some b ->
  heap s !! b = Some (Live cb) ->
  1 < ControlBlock.shared_refs_ cb ->
  objs s !! other = Some oo ->
  exists s',
    move_assign this other s = Ok tt s'
    /\ heap s' !! b = Some Freed
    /\ trace s' = trace s ++ deleter_events b cb ++ [EvDeleteBlock b]
    /\ deleter_calls b s' = S (deleter_calls b s)
    /\ forall h o', h <> this -> h <> other ->
         objs s !! h = Some o' ->
         shared_ptr.control_block_ptr o' = Some b ->
         objs s' !! h = Some o' /\ use_count h s' = UB UseAfterFree.
Proof.
  destruct s as [O H T]. cbn [objs heap trace]. intros Hne E N L C E'.
  eexists. split; [apply (move_assign_onto_owner O H T this other o oo b cb Hne E N L E')|].
  cbn [objs heap trace].
  split; [apply lookup_insert_eq|]. split; [reflexivity|]. split.
  - unfold deleter_calls. cbn [trace].
    rewrite calls_in_app, calls_in_release. lia.
  - intros h o' H1 H2 Eh Nh.
    assert (Eh' : <[other := shared_ptr.Build nullptr None]> (<[this := oo]> O) !! h = Some o').
    { rewrite !lookup_insert_ne by congruence. exact Eh. }
    split; [exact Eh'|].
    apply (use_count_dangling _ _ _ h o' b Eh' Nh). apply lookup_insert_eq.
Qed.

Lemma C4_witness :
  exists s',
    move_assign 1 2 two_owners = Ok tt s'
    /\ heap s' !! 1%positive = Some Freed
    /\ deleter_calls 1 s' = 1%nat
    /\ objs s' !! 0%nat = Some (shared_ptr.Build 100 (Some 1%positive))
    /\ use_count 0 s' = UB UseAfterFree.
Proof.
  destruct (C4_move_assign_releases_shared_block 1 2 two_owners
              (shared_ptr.Build 100 (Some 1%positive))
              (shared_ptr.Build 200 (Some 2%positive))
              1 (set_shared 2 (ControlBlock_ctor 100)))
    as (s' & E & F & _ & D & Others);
    [discriminate | reflexivity | reflexivity | reflexivity | reflexivity
    | reflexivity | ].
  exists s'. split; [exact E|]. split; [exact F|]. split; [exact D|].
  apply (Others 0%nat (shared_ptr.Build 100 (Some 1%positive)));
    [discriminate | discriminate | reflexivity | reflexivity].
Defined.

(** C5 (code defect).  The claim: a handle without a control block has a
    null raw pointer after every operation; after [reset()], [get()] returns
    null, the boolean conversion is false and [use_count()] is 0.  The
    code: [reset()] sets [control_block_ptr] to null and leaves [ptr_] as it
    was.  After [reset()] on a handle owning payload [p], the boolean
    conversion is false and [use_count()] is 0, and [get()] still returns
    [p]. *)
Theorem C5_reset_keeps_raw_pointer (this : nat) (s : state) (p : Z)
        (b : positive) (cb : ControlBlock.t) :
  objs s !! this = Some (shared_ptr.Build p (Some b)) ->
  heap s !! b = Some (Live cb) ->
  p <> nullptr ->
  exists s',
    reset this s = Ok tt s'
    /\ objs s' !! this = Some (shared_ptr.Build p None)
    /\ operator_bool this s' = Ok false s'
    /\ use_count this s' = Ok 0 s'
    /\ get this s' = Ok p s'
    /\ get this s' <> Ok nullptr s'.
Proof.
  destruct s as [O H T]. simpl. intros E L Hp.
  eexists. split; [apply (reset_owning O H T this _ b cb E eq_refl L)|].
  cbn [objs shared_ptr.ptr_].
  split; [apply lookup_insert_eq|].
  match goal with
  | |- context [State ?O' ?H' ?T'] =>
      pose proof (observe_empty O' H' T' this p (lookup_insert_eq _ _ _))
        as (Hb & Hu & Hg)
  end.
  repeat split; try assumption.
  rewrite Hg. intros Eq. injection Eq as Eq. contradiction.
Qed.

Lemma C5_witness :
  exists s',
    reset 0 one_owner = Ok tt s'
    /\ objs s' !! 0%nat = Some (shared_ptr.Build 100 None)
    /\ operator_bool 0 s' = Ok false s'
    /\ use_count 0 s' = Ok 0 s'
    /\ get 0 s' = Ok 100 s'
    /\ get 0 s' <> Ok nullptr s'.
Proof.
  apply (C5_reset_keeps_raw_pointer 0 one_owner 100 1 (ControlBlock_ctor 100));
    [reflexivity | reflexivity | discriminate].
Defined.

(** C6 (code defect).  The claim: destroying handles to one control block
    from different threads is safe, because the decrement to zero is one
    atomic fetch-and-subtract whose result alone selects the releasing
    thread.  The code: [decrement_shared] is a load followed by an exchange
    whose result is dropped, and the destructor then loads the counter again
    for each test.  In the interleaving [both_see_zero] of two destructors
    on a block of count 2, both threads read 0 and both call the deleter:
    the payload is deleted twice. *)
Theorem C6_two_destructors_both_release :
  exists s,
    run_schedule both_see_zero two_threads two_owners
    = Ok [(1%positive, AtZeroTest2); (1%positive, AtZeroTest2)] s
    /\ live_count 1 s = Some 0
    /\ deleter_calls 1 s = 2%nat
    /\ trace s = [EvCallDeleter 1 my_default_deleter 100; EvDeletePayload 100;
                  EvCallDeleter 1 my_default_deleter 100; EvDeletePayload 100].
Proof.
  eexists. split; [vm_compute; reflexivity|].
  repeat split; vm_compute; reflexivity.
Qed.


(** C7 (code defect).  The claim: when [N] copies of one handle exist at
    the same time, every copy reports [use_count() == N].  The code: copy
    assignment onto a handle that is not the last owner of its block adopts
    the source and increments, without decrementing the count of the block
    it leaves.  When the source owns the same block, as in
    [a(p); b(a); b = a;], no handle is made and none is destroyed, the [N]
    owners of the block are the same as before, and where each of them
    reported [N] before the assignment, each reports [N + 1] after it. *)
Theorem C7_assignment_between_copies_overcounts (this other : nat) (s : state)
        (o oo : shared_ptr.t) (b : positive) (cb : ControlBlock.t) :
  this <> other ->
  objs s !! this = Some o ->
  shared_ptr.control_block_ptr o = Some b ->
  objs s !! other = Some oo ->
  shared_ptr.control_block_ptr oo = Some b ->
  heap s !! b = Some (Live cb) ->
  ControlBlock.shared_refs_ cb = Z.of_nat (owners b s) ->
  Z.of_nat (owners b s) + 1 < long_half ->
  exists s',
    copy_assign this other s = Ok tt s'
    /\ dom (objs s') = dom (objs s)
    /\ owners b s' = owners b s
    /\ (forall h o', objs s !! h = Some o' ->
          shared_ptr.control_block_ptr o' = Some b ->
          use_count h s = Ok (Z.of_nat (owners b s)) s)
    /\ (forall h o', objs s' !! h = Some o' ->
          shared_ptr.control_block_ptr o' = Some b ->
          use_count h s' = Ok (Z.of_nat (owners b s') + 1) s').
Proof.
  destruct s as [O H T]. cbn [objs heap].
  intros Hne E N E' N' L Hc Hlt.
  pose proof long_half_lt_modulus as LM.
  pose proof (owners_two b O H T this other o oo Hne E N E' N') as Two.
  assert (C1 : ControlBlock.shared_refs_ cb <> 1) by lia.
  pose proof (copy_assign_shared O H T this other o oo b cb Hne E N L C1 E') as R.
  rewrite N', L in R. rewrite wrap_size_t_small in R by lia.
  eexists. split; [exact R|]. cbn [objs heap].
  pose proof (owners_reassign b O H
                (<[b := Live (set_shared (ControlBlock.shared_refs_ cb + 1) cb)]> H)
                T T this o oo E N N') as Same.
  split; [apply dom_insert_lookup_L; rewrite E; eauto|].
  split; [exact Same|]. split.
  - intros h o' Eh Nh.
    rewrite (use_count_owning O H T h o' b cb Eh Nh L).
    rewrite to_long_small by lia. rewrite Hc. reflexivity.
  - intros h o' Eh Nh.
    erewrite (use_count_owning _ _ T h o' b _ Eh Nh)
      by apply lookup_insert_eq.
    cbn [set_shared ControlBlock.shared_refs_].
    rewrite to_long_small by lia. rewrite Same, Hc. reflexivity.
Qed.

Lemma C7_witness :
  exists s',
    copy_assign 1 0 two_copies = Ok tt s'
    /\ dom (objs s') = dom (objs two_copies)
    /\ owners 1 s' = 2%nat
    /\ use_count 0 two_copies = Ok 2 two_copies
    /\ use_count 1 two_copies = Ok 2 two_copies
    /\ use_count 0 s' = Ok 3 s'
    /\ use_count 1 s' = Ok 3 s'.
Proof.
  destruct (C7_assignment_between_copies_overcounts 1 0 two_copies
              (shared_ptr.Build 100 (Some 1%positive))
              (shared_ptr.Build 100 (Some 1%positive))
              1 (set_shared 2 (ControlBlock_ctor 100)))
    as (s' & E & D & Ow & Before & After);
    [discriminate | reflexivity | reflexivity | reflexivity | reflexivity
    | reflexivity | vm_compute; reflexivity | vm_compute; reflexivity | ].
  assert (O2 : owners 1 two_copies = 2%nat) by (vm_compute; reflexivity).
  rewrite O2 in Ow, Before. rewrite Ow in After.
  assert (In0 : objs s' !! 0%nat = Some (shared_ptr.Build 100 (Some 1%positive))).
  { unfold copy_assign in E. vm_compute in E. injection E as <-. reflexivity. }
  assert (In1 : objs s' !! 1%nat = Some (shared_ptr.Build 100 (Some 1%positive))).
  { unfold copy_assign in E. vm_compute in E. injection E as <-. reflexivity. }
  exists s'. split; [exact E|]. split; [exact D|]. split; [exact Ow|].
  split; [apply (Before 0%nat _ eq_refl eq_refl)|].
  split; [apply (Before 1%nat _ eq_refl eq_refl)|].
  split; [apply (After 0%nat _ In0 eq_refl) | apply (After 1%nat _ In1 eq_refl)].
Defined.

(** C8.  Self-assignment [h = h] is detected by comparing addresses and
    does nothing: the state after it is the state before it, so
    [use_count()] and [get()] return what they returned before, no counter
    has changed and no deleter has run. *)
Theorem C8_self_assignment_noop (h : nat) (s : state) :
  copy_assign h h s = Ok tt s
  /\ (copy_assign h h ;; use_count h) s = use_count h s
  /\ (copy_assign h h ;; get h) s = get h s
  /\ (copy_assign h h ;; get_shared_cnt h) s = get_shared_cnt h s.
Proof.
  pose proof (copy_assign_self h s) as E.
  repeat split; try exact E; rewrite (bind_Ok _ _ _ _ _ E); reflexivity.
Qed.

(** C9 (code defect).  The claim: copy assignment onto a handle that owns
    a block of count above 1 leaves that block entirely unchanged, so every
    remaining owner observes the same count as before.  The code: after the
    skipped release, the destination adopts the block of the source and
    increments its count, and nothing has decremented the count of the block
    it left.  When the source is another owner of the same block, the block
    that is incremented is the old block: no deleter runs and the block is
    not released, but its count goes from [n] to [n + 1], and every other
    owner that read [n] before the assignment reads [n + 1] after it. *)
Theorem C9_copy_assign_between_owners_raises_count (this other : nat)
        (s : state) (o oo : shared_ptr.t) (b : positive) (cb : ControlBlock.t) :
  this <> other ->
  objs s !! this = Some o ->
  shared_ptr.control_block_ptr o = Some b ->
  heap s !! b = Some (Live cb) ->
  1 < ControlBlock.shared_refs_ cb ->
  ControlBlock.shared_refs_ cb + 1 < long_half ->
  objs s !! other = Some oo ->
  shared_ptr.control_block_ptr oo = Some b ->
  exists s',
    copy_assign this other s = Ok tt s'
    /\ trace s' = trace s
    /\ heap s' !! b
       = Some (Live (set_shared (ControlBlock.shared_refs_ cb + 1) cb))
    /\ live_count b s = Some (ControlBlock.shared_refs_ cb)
    /\ live_count b s' = Some (ControlBlock.shared_refs_ cb + 1)
    /\ live_count b s' <> live_count b s
    /\ forall h o', h <> this ->
         objs s !! h = Some o' ->
         shared_ptr.control_block_ptr o' = Some b ->
         objs s' !! h = Some o'
         /\ use_count h s = Ok (ControlBlock.shared_refs_ cb) s
         /\ use_count h s' = Ok (ControlBlock.shared_refs_ cb + 1) s'.
Proof.
  destruct s as [O H T]. cbn [objs heap trace].
  intros Hne E N L C Hlt E' N'.
  pose proof long_half_lt_modulus as LM.
  assert (C1 : ControlBlock.shared_refs_ cb <> 1) by lia.
  pose proof (copy_assign_shared O H T this other o oo b cb Hne E N L C1 E') as R.
  rewrite N', L in R. rewrite wrap_size_t_small in R by lia.
  eexists. split; [exact R|]. cbn [objs heap trace].
  split; [reflexivity|].
  split; [apply lookup_insert_eq|].
  unfold live_count. cbn [heap]. rewrite L, lookup_insert_eq.
  cbn [set_shared ControlBlock.shared_refs_].
  split; [reflexivity|]. split; [reflexivity|].
  split; [intros Eq; injection Eq as Eq; lia|].
  intros h o' Hh Eh Nh.
  assert (Eh' : <[this := oo]> O !! h = Some o')
    by (rewrite lookup_insert_ne by congruence; exact Eh).
  split; [exact Eh'|]. split.
  - rewrite (use_count_owning O H T h o' b cb Eh Nh L).
    rewrite to_long_small by lia. reflexivity.
  - erewrite (use_count_owning _ _ T h o' b _ Eh' Nh)
      by apply lookup_insert_eq.
    cbn [set_shared ControlBlock.shared_refs_].
    rewrite to_long_small by lia. reflexivity.
Qed.

Lemma C9_witness :
  exists s',
    copy_assign 1 0 two_owners = Ok tt s'
    /\ trace s' = trace two_owners
    /\ live_count 1 two_owners = Some 2
    /\ live_count 1 s' = Some 3
    /\ live_count 1 s' <> live_count 1 two_owners
    /\ objs s' !! 0%nat = Some (shared_ptr.Build 100 (Some 1%positive))
    /\ use_count 0 two_owners = Ok 2 two_owners
    /\ use_count 0 s' = Ok 3 s'.
Proof.
  destruct (C9_copy_assign_between_owners_raises_count 1 0 two_owners
              (shared_ptr.Build 100 (Some 1%positive))
              (shared_ptr.Build 100 (Some 1%positive))
              1 (set_shared 2 (ControlBlock_ctor 100)))
    as (s' & E & Tr & _ & L0 & L1 & Ne & Others);
    [discriminate | reflexivity | reflexivity | reflexivity | reflexivity
    | reflexivity | reflexivity | reflexivity | ].
  exists s'. split; [exact E|]. split; [exact Tr|]. split; [exact L0|].
  split; [exact L1|]. split; [exact Ne|].
  apply (Others 0%nat (shared_ptr.Build 100 (Some 1%positive)));
    [discriminate | reflexivity | reflexivity].
Defined.

(** C10.  [reset(p)] with [p == nullptr] allocates a fresh control block
    over the null payload: afterwards the boolean conversion is true,
    [use_count()] is 1 and [get()] is null.  Constructing a handle from a
    null pointer allocates nothing and gives an empty handle. *)
Theorem C10_reset_nullptr_allocates (this : nat) (s : state) (o : shared_ptr.t) :
  objs s !! this = Some o ->
  (forall b, shared_ptr.control_block_ptr o = Some b ->
             exists cb, heap s !! b = Some (Live cb)) ->
  (exists s' b',
     reset_ptr this nullptr s = Ok tt s'
     /\ heap s !! b' = None
     /\ heap s' !! b' = Some (Live (ControlBlock.Build nullptr 1 0 my_default_deleter))
     /\ objs s' !! this = Some (shared_ptr.Build nullptr (Some b'))
     /\ operator_bool this s' = Ok true s'
     /\ use_count this s' = Ok 1 s'
     /\ get this s' = Ok nullptr s')
  /\ (exists s'' h,
        shared_ptr_ctor nullptr s = Ok h s''
        /\ objs s'' !! h = Some (shared_ptr.Build nullptr None)
        /\ heap s'' = heap s
        /\ operator_bool h s'' = Ok false s''
        /\ use_count h s'' = Ok 0 s'').
Proof.
  destruct s as [O H T]. simpl. intros E Hb. split.
  - destruct (shared_ptr.control_block_ptr o) as [b|] eqn:N.
    + destruct (Hb b eq_refl) as [cb L].
      eexists _, (fresh (dom (<[b := Freed]> H))).
      split; [apply (reset_ptr_owning O H T this o b cb nullptr E N L)|].
      simpl. pose proof (fresh_heap_None (<[b := Freed]> H)) as F.
      assert (fresh (dom (<[b := Freed]> H)) <> b) as Hne.
      { intros Eq. rewrite Eq in F at 1. rewrite lookup_insert_eq in F. discriminate. }
      split; [rewrite lookup_insert_ne in F by done; exact F|].
      split; [apply lookup_insert_eq|].
      split; [apply lookup_insert_eq|].
      refine (observe_owner _ _ _ this nullptr _ (ControlBlock_ctor nullptr) _ _);
        apply lookup_insert_eq.
    + eexists _, (fresh (dom H)).
      split; [apply (reset_ptr_empty O H T this o nullptr E N)|].
      simpl.
      split; [apply fresh_heap_None|].
      split; [apply lookup_insert_eq|].
      split; [apply lookup_insert_eq|].
      refine (observe_owner _ _ _ this nullptr _ (ControlBlock_ctor nullptr) _ _);
        apply lookup_insert_eq.
  - eexists _, _. split; [apply shared_ptr_ctor_null|]. simpl.
    split; [apply lookup_insert_eq|].
    split; [reflexivity|].
    pose proof (observe_empty (<[fresh (dom O) := shared_ptr.Build nullptr None]> O)
                  H T (fresh (dom O)) nullptr (lookup_insert_eq _ _ _)) as (Hb1 & Hu & _).
    split; assumption.
Qed.

Lemma C10_witness :
  (exists s' b',
     reset_ptr 0 nullptr one_owner = Ok tt s'
     /\ heap one_owner !! b' = None
     /\ heap s' !! b' = Some (Live (ControlBlock.Build nullptr 1 0 my_default_deleter))
     /\ objs s' !! 0%nat = Some (shared_ptr.Build nullptr (Some b'))
     /\ operator_bool 0 s' = Ok true s'
     /\ use_count 0 s' = Ok 1 s'
     /\ get 0 s' = Ok nullptr s')
  /\ (exists s'' h,
        shared_ptr_ctor nullptr one_owner = Ok h s''
        /\ objs s'' !! h = Some (shared_ptr.Build nullptr None)
        /\ heap s'' = heap one_owner
        /\ operator_bool h s'' = Ok false s''
        /\ use_count h s'' = Ok 0 s'').
Proof.
  apply (C10_reset_nullptr_allocates 0 one_owner
           (shared_ptr.Build 100 (Some 1%positive))).
  - reflexivity.
  - intros b Eb. exists (ControlBlock_ctor 100).
    injection Eb as <-. reflexivity.
Defined.

(* ================================================================== *)
(** * Further properties of the header *)

(** ** Successful runs, read backwards *)

Lemma bind_inv {A B} (m : M A) (k : A -> M B) (s : state) (b : B) (s' : state) :
  bind m k s = Ok b s' -> exists a s1, m s = Ok a s1 /\ k a s1 = Ok b s'.
Proof. unfold bind. destruct (m s) as [a s1|e]; [eauto | discriminate]. Qed.

Lemma ret_inv {A} (a b : A) (s s' : state) : ret a s = Ok b s' -> b = a /\ s' = s.
Proof. unfold ret. intros E. injection E as <- <-. auto. Qed.

Lemma this_obj_inv (h : nat) (s : state) (o : shared_ptr.t) (s' : state) :
  this_obj h s = Ok o s' -> s' = s /\ objs s !! h = Some o.
Proof.
  unfold this_obj. destruct (objs s !! h); [|discriminate].
  intros E. injection E as <- <-. auto.
Qed.

Lemma block_at_inv (b : positive) (s : state) (cb : ControlBlock.t) (s' : state) :
  block_at b s = Ok cb s' -> s' = s /\ heap s !! b = Some (Live cb).
Proof.
  unfold block_at. destruct (heap s !! b) as [[c|]|]; try discriminate.
  intros E. injection E as <- <-. auto.
Qed.

Lemma read_ptr__inv (h : nat) (s : state) (p : Z) (s' : state) :
  read_ptr_ h s = Ok p s' ->
  s' = s /\ exists o, objs s !! h = Some o /\ p = shared_ptr.ptr_ o.
Proof.
  unfold read_ptr_. intros E. apply bind_inv in E as (o & s1 & E1 & E2).
  apply this_obj_inv in E1 as (-> & E1). apply ret_inv in E2 as (-> & ->). eauto.
Qed.

Lemma read_control_block_ptr_inv (h : nat) (s : state) (c : option positive)
      (s' : state) :
  read_control_block_ptr h s = Ok c s' ->
  s' = s /\ exists o, objs s !! h = Some o /\ c = shared_ptr.control_block_ptr o.
Proof.
  unfold read_control_block_ptr. intros E.
  apply bind_inv in E as (o & s1 & E1 & E2).
  apply this_obj_inv in E1 as (-> & E1). apply ret_inv in E2 as (-> & ->). eauto.
Qed.

Lemma write_ptr__inv (h : nat) (p : Z) (s : state) (u : unit) (s' : state) :
  write_ptr_ h p s = Ok u s' ->
  exists o, objs s !! h = Some o
    /\ s' = State (<[h := shared_ptr.Build p (shared_ptr.control_block_ptr o)]> (objs s))
                  (heap s) (trace s).
Proof.
  unfold write_ptr_. intros E. apply bind_inv in E as (o & s1 & E1 & E2).
  apply this_obj_inv in E1 as (-> & E1). injection E2 as <-. eauto.
Qed.

Lemma write_control_block_ptr_inv (h : nat) (c : option positive) (s : state)
      (u : unit) (s' : state) :
  write_control_block_ptr h c s = Ok u s' ->
  exists o, objs s !! h = Some o
    /\ s' = State (<[h := shared_ptr.Build (shared_ptr.ptr_ o) c]> (objs s))
                  (heap s) (trace s).
Proof.
  unfold write_control_block_ptr. intros E.
  apply bind_inv in E as (o & s1 & E1 & E2).
  apply this_obj_inv in E1 as (-> & E1). injection E2 as <-. eauto.
Qed.

Lemma shared_load_inv (b : positive) (s : state) (n : Z) (s' : state) :
  shared_load b s = Ok n s' ->
  s' = s /\ exists cb, heap s !! b = Some (Live cb) /\ n = ControlBlock.shared_refs_ cb.
Proof.
  unfold shared_load. intros E. apply bind_inv in E as (cb & s1 & E1 & E2).
  apply block_at_inv in E1 as (-> & E1). apply ret_inv in E2 as (-> & ->). eauto.
Qed.

Lemma weak_load_inv (b : positive) (s : state) (n : Z) (s' : state) :
  weak_load b s = Ok n s' ->
  s' = s /\ exists cb, heap s !! b = Some (Live cb) /\ n = ControlBlock.weak_refs_ cb.
Proof.
  unfold weak_load. intros E. apply bind_inv in E as (cb & s1 & E1 & E2).
  apply block_at_inv in E1 as (-> & E1). apply ret_inv in E2 as (-> & ->). eauto.
Qed.

Lemma shared_exchange_inv (b : positive) (v : Z) (s : state) (n : Z) (s' : state) :
  shared_exchange b v s = Ok n s' ->
  exists cb, heap s !! b = Some (Live cb)
    /\ n = ControlBlock.shared_refs_ cb
    /\ s' = State (objs s) (<[b := Live (set_shared v cb)]> (heap s)) (trace s).
Proof.
  unfold shared_exchange. intros E. apply bind_inv in E as (cb & s1 & E1 & E2).
  apply block_at_inv in E1 as (-> & E1).
  apply bind_inv in E2 as (u & s2 & E2 & E3).
  unfold store_block in E2. injection E2 as <-.
  apply ret_inv in E3 as (-> & ->). eauto.
Qed.

Lemma call_deleter_inv (b : positive) (s : state) (u : unit) (s' : state) :
  call_deleter b s = Ok u s' ->
  exists cb, heap s !! b = Some (Live cb)
    /\ s' = State (objs s) (heap s) (trace s ++ deleter_events b cb).
Proof.
  intros E. destruct s as [O H T].
  destruct (H !! b) as [[cb|]|] eqn:L.
  - rewrite (call_deleter_Ok O H T b cb L) in E. injection E as <-. eauto.
  - unfold call_deleter, bind, block_at in E. simpl in E. rewrite L in E. discriminate.
  - unfold call_deleter, bind, block_at in E. simpl in E. rewrite L in E. discriminate.
Qed.

Lemma delete_block_inv (b : positive) (s : state) (u : unit) (s' : state) :
  delete_block b s = Ok u s' ->
  exists cb, heap s !! b = Some (Live cb)
    /\ s' = State (objs s) (<[b := Freed]> (heap s)) (trace s ++ [EvDeleteBlock b]).
Proof.
  unfold delete_block. destruct (heap s !! b) as [[cb|]|]; try discriminate.
  intros E. injection E as <-. eauto.
Qed.

Lemma increment_shared_inv (b : positive) (s : state) (u : unit) (s' : state) :
  increment_shared b s = Ok u s' ->
  exists cb, heap s !! b = Some (Live cb)
    /\ s' = State (objs s)
          (<[b := Live (set_shared
               (wrap_size_t (ControlBlock.shared_refs_ cb + 1)) cb)]> (heap s))
          (trace s).
Proof.
  intros E. destruct s as [O H T].
  destruct (H !! b) as [[cb|]|] eqn:L.
  - rewrite (increment_shared_Ok O H T b cb L) in E. injection E as <-. eauto.
  - unfold increment_shared, shared_load, bind, block_at in E. simpl in E.
    rewrite L in E. discriminate.
  - unfold increment_shared, shared_load, bind, block_at in E. simpl in E.
    rewrite L in E. discriminate.
Qed.

Lemma decrement_shared_inv (b : positive) (s : state) (u : unit) (s' : state) :
  decrement_shared b s = Ok u s' ->
  exists cb, heap s !! b = Some (Live cb)
    /\ s' = State (objs s)
          (if ControlBlock.shared_refs_ cb =? 0 then heap s
           else <[b := Live (set_shared
                  (wrap_size_t (ControlBlock.shared_refs_ cb - 1)) cb)]> (heap s))
          (trace s).
Proof.
  intros E. destruct s as [O H T].
  destruct (H !! b) as [[cb|]|] eqn:L.
  - rewrite (decrement_shared_Ok O H T b cb L) in E. injection E as <-. eauto.
  - unfold decrement_shared, shared_load, bind, block_at in E. simpl in E.
    rewrite L in E. discriminate.
  - unfold decrement_shared, shared_load, bind, block_at in E. simpl in E.
    rewrite L in E. discriminate.
Qed.

(** The count after [decrement_shared] on a count [n]. *)
Lemma set_shared_same (cb : ControlBlock.t) :
  set_shared (ControlBlock.shared_refs_ cb) cb = cb.
Proof. destruct cb. reflexivity. Qed.

Lemma decrement_shared_inv' (b : positive) (s : state) (u : unit) (s' : state) :
  decrement_shared b s = Ok u s' ->
  exists cb, heap s !! b = Some (Live cb)
    /\ s' = State (objs s)
          (<[b := Live (set_shared
               (if ControlBlock.shared_refs_ cb =? 0 then 0
                else wrap_size_t (ControlBlock.shared_refs_ cb - 1)) cb)]> (heap s))
          (trace s).
Proof.
  intros E. apply decrement_shared_inv in E as (cb & L & ->).
  exists cb. split; [exact L|].
  destruct (ControlBlock.shared_refs_ cb =? 0) eqn:C; [|reflexivity].
  apply Z.eqb_eq in C. rewrite <- C, set_shared_same, insert_id by exact L.
  reflexivity.
Qed.

Lemma deref_inv (c : option positive) (s : state) (b : positive) (s' : state) :
  deref c s = Ok b s' -> c = Some b /\ s' = s.
Proof.
  destruct c as [b'|]; [|discriminate]. intros E. apply ret_inv in E as (-> & ->). auto.
Qed.

Lemma new_obj_inv (s : state) (h : nat) (s' : state) :
  new_obj s = Ok h s' ->
  h = fresh (dom (objs s))
  /\ s' = State (<[h := shared_ptr.Build nullptr None]> (objs s)) (heap s) (trace s).
Proof. unfold new_obj. intros E. injection E as <- <-. auto. Qed.

Lemma new_block_inv (cb : ControlBlock.t) (s : state) (b : positive) (s' : state) :
  new_block cb s = Ok b s' ->
  b = fresh (dom (heap s))
  /\ s' = State (objs s) (<[b := Live cb]> (heap s)) (trace s).
Proof. unfold new_block. intros E. injection E as <- <-. auto. Qed.

Lemma end_obj_inv (h : nat) (s : state) (u : unit) (s' : state) :
  end_obj h s = Ok u s' -> s' = State (delete h (objs s)) (heap s) (trace s).
Proof. unfold end_obj. intros E. injection E as <-. auto. Qed.

(** Symbolic execution of a successful run. *)
Ltac sym1 :=
  match goal with
  | E : bind _ _ _ = Ok _ _ |- _ =>
      apply bind_inv in E; destruct E as (? & ? & ? & E)
  | E : ret _ _ = Ok _ _ |- _ =>
      apply ret_inv in E; destruct E as (? & ?); subst
  | E : read_ptr_ _ _ = Ok _ _ |- _ =>
      apply read_ptr__inv in E; destruct E as (? & ? & ? & ?); subst
  | E : read_control_block_ptr _ _ = Ok _ _ |- _ =>
      apply read_control_block_ptr_inv in E; destruct E as (? & ? & ? & ?); subst
  | E : write_ptr_ _ _ _ = Ok _ _ |- _ =>
      apply write_ptr__inv in E; destruct E as (? & ? & ?); subst
  | E : write_control_block_ptr _ _ _ = Ok _ _ |- _ =>
      apply write_control_block_ptr_inv in E; destruct E as (? & ? & ?); subst
  | E : shared_refs _ _ = Ok _ _ |- _ =>
      apply shared_load_inv in E; destruct E as (? & ? & ? & ?); subst
  | E : weak_refs _ _ = Ok _ _ |- _ =>
      apply weak_load_inv in E; destruct E as (? & ? & ? & ?); subst
  | E : shared_load _ _ = Ok _ _ |- _ =>
      apply shared_load_inv in E; destruct E as (? & ? & ? & ?); subst
  | E : increment_shared _ _ = Ok _ _ |- _ =>
      apply increment_shared_inv in E; destruct E as (? & ? & ?); subst
  | E : decrement_shared _ _ = Ok _ _ |- _ =>
      apply decrement_shared_inv' in E; destruct E as (? & ? & ?); subst
  | E : call_deleter _ _ = Ok _ _ |- _ =>
      apply call_deleter_inv in E; destruct E as (? & ? & ?); subst
  | E : delete_block _ _ = Ok _ _ |- _ =>
      apply delete_block_inv in E; destruct E as (? & ? & ?); subst
  | E : deref _ _ = Ok _ _ |- _ =>
      apply deref_inv in E; destruct E as (? & ?); subst
  | E : new_obj _ = Ok _ _ |- _ =>
      apply new_obj_inv in E; destruct E as (? & ?); subst
  | E : new_block _ _ = Ok _ _ |- _ =>
      apply new_block_inv in E; destruct E as (? & ?); subst
  | E : end_obj _ _ = Ok _ _ |- _ =>
      apply end_obj_inv in E; subst
  | E : (match ?c with Some _ => _ | None => _ end) _ = Ok _ _ |- _ =>
      destruct c eqn:?
  | E : (if ?c then _ else _) _ = Ok _ _ |- _ =>
      destruct c eqn:?
  | H1 : ?m !! ?k = Some ?a, H2 : ?m !! ?k = Some ?b |- _ =>
      let Q := fresh in
      assert (Q : Some b = Some a) by (rewrite <- H1, <- H2; reflexivity);
      clear H2; simplify_eq
  | H1 : <[?k := ?v]> ?m !! ?k = Some ?a |- _ =>
      rewrite lookup_insert_eq in H1; simplify_eq
  | H1 : <[?k := ?v]> ?m !! ?k' = Some ?a, N : ?k <> ?k' |- _ =>
      rewrite (lookup_insert_ne _ _ _ _ N) in H1
  | H1 : <[?k := ?v]> ?m !! ?k' = Some ?a, N : ?k' <> ?k |- _ =>
      rewrite (lookup_insert_ne _ _ _ _ (not_eq_sym N)) in H1
  | H1 : <[?k := ?v]> ?m !! ?k' = Some ?a |- _ =>
      destruct (decide (k = k')) as [?|?]; [subst|]
  end; cbn [objs heap trace shared_ptr.ptr_ shared_ptr.control_block_ptr
            ControlBlock.shared_refs_ ControlBlock.weak_refs_
            ControlBlock.ptr_ ControlBlock.deleter_ptr_] in *.

Ltac sym := repeat sym1.

(** ** Consistent states *)

Lemma wrap_size_t_range (z : Z) : 0 <= wrap_size_t z < size_t_modulus.
Proof. unfold wrap_size_t. apply Z.mod_pos_bound. reflexivity. Qed.

Lemma calls_in_deleter_events (b : positive) (cb : ControlBlock.t) :
  calls_in b (deleter_events b cb) = 1%nat.
Proof.
  pose proof (calls_in_release b cb) as R. rewrite calls_in_app in R.
  unfold calls_in at 2 in R. simpl in R. lia.
Qed.

Lemma calls_in_release_other (b b' : positive) (cb : ControlBlock.t) :
  b' <> b -> calls_in b' (deleter_events b cb ++ [EvDeleteBlock b]) = 0%nat.
Proof.
  intros N. unfold calls_in, deleter_events. simpl.
  rewrite filter_cons_False.
  - destruct (ControlBlock.deleter_ptr_ cb); [destruct (_ =? nullptr)|];
      reflexivity.
  - simpl. intros E. apply Pos.eqb_eq in E. contradiction.
Qed.

(** ** [handle_ok] under changes of the heap *)

Lemma handle_ok_freed (H : gmap positive cell) (b : positive) (o : shared_ptr.t) :
  handle_ok H o -> handle_ok (<[b := Freed]> H) o.
Proof.
  unfold handle_ok. destruct (shared_ptr.control_block_ptr o) as [b'|]; [|auto].
  destruct (decide (b = b')) as [->|N].
  - rewrite lookup_insert_eq. destruct (H !! b') as [[?|]|]; auto.
  - rewrite lookup_insert_ne by exact N. auto.
Qed.

Lemma handle_ok_set_shared (H : gmap positive cell) (b : positive)
      (cb : ControlBlock.t) (v : Z) (o : shared_ptr.t) :
  H !! b = Some (Live cb) ->
  handle_ok H o -> handle_ok (<[b := Live (set_shared v cb)]> H) o.
Proof.
  intros L. unfold handle_ok.
  destruct (shared_ptr.control_block_ptr o) as [b'|]; [|auto].
  destruct (decide (b = b')) as [->|N].
  - rewrite lookup_insert_eq, L. auto.
  - rewrite lookup_insert_ne by exact N. auto.
Qed.

Lemma handle_ok_alloc (H : gmap positive cell) (c : cell) (o : shared_ptr.t) :
  handle_ok H o -> handle_ok (<[fresh (dom H) := c]> H) o.
Proof.
  unfold handle_ok. destruct (shared_ptr.control_block_ptr o) as [b'|]; [|auto].
  destruct (decide (fresh (dom H) = b')) as [<-|N].
  - rewrite fresh_heap_None. contradiction.
  - rewrite lookup_insert_ne by exact N. auto.
Qed.

Lemma handle_ok_owner (H : gmap positive cell) (b : positive)
      (cb : ControlBlock.t) :
  H !! b = Some (Live cb) ->
  handle_ok H (shared_ptr.Build (ControlBlock.ptr_ cb) (Some b)).
Proof. intros L. unfold handle_ok. simpl. rewrite L. reflexivity. Qed.

Lemma handle_ok_empty (H : gmap positive cell) (p : Z) :
  handle_ok H (shared_ptr.Build p None).
Proof. exact I. Qed.

Lemma handle_ok_dropped (H : gmap positive cell) (b : positive) (p : Z) :
  H !! b = Some Freed -> handle_ok H (shared_ptr.Build p (Some b)).
Proof. intros L. unfold handle_ok. simpl. rewrite L. exact I. Qed.

(** ** The moves that keep a state consistent *)

Section Consistent.
Variables (O : gmap nat shared_ptr.t) (H : gmap positive cell) (T : list event).
Hypothesis C : consistent (State O H T).

Lemma consistent_lookup (h : nat) (o : shared_ptr.t) :
  O !! h = Some o -> handle_ok H o.
Proof. destruct C as (C1 & _); cbn [objs heap trace] in C1. apply (C1 h o). Qed.

Lemma consistent_set_handle (h : nat) (o : shared_ptr.t) :
  handle_ok H o -> consistent (State (<[h := o]> O) H T).
Proof.
  destruct C as (C1 & C2 & C3); cbn [objs heap trace] in C1, C2, C3. intros Ho. split; [|split; assumption].
  cbn [objs heap]. intros h' o' E.
  destruct (decide (h = h')) as [->|N].
  - rewrite lookup_insert_eq in E. injection E as <-. exact Ho.
  - rewrite lookup_insert_ne in E by exact N. apply (C1 h' o' E).
Qed.

Lemma consistent_end_handle (h : nat) : consistent (State (delete h O) H T).
Proof.
  destruct C as (C1 & C2 & C3); cbn [objs heap trace] in C1, C2, C3. split; [|split; assumption].
  cbn [objs heap]. intros h' o' E.
  apply lookup_delete_Some in E as (_ & E). apply (C1 h' o' E).
Qed.

Lemma consistent_set_shared (b : positive) (cb : ControlBlock.t) (v : Z) :
  H !! b = Some (Live cb) ->
  0 <= v < size_t_modulus ->
  consistent (State O (<[b := Live (set_shared v cb)]> H) T).
Proof.
  destruct C as (C1 & C2 & C3); cbn [objs heap trace] in C1, C2, C3. intros L Hv. split; [|split]; cbn [objs heap trace].
  - intros h o E. apply handle_ok_set_shared; [exact L|]. apply (C1 h o E).
  - intros b' cb' L'. destruct (decide (b = b')) as [->|N].
    + rewrite lookup_insert_eq in L'. injection L' as <-.
      destruct (C2 b' cb L) as (W & _). split; [exact W | exact Hv].
    + rewrite lookup_insert_ne in L' by exact N. apply (C2 b' cb' L').
  - intros b'. rewrite (C3 b'). cbn [heap].
    destruct (decide (b = b')) as [->|N].
    + rewrite lookup_insert_eq, L. reflexivity.
    + rewrite lookup_insert_ne by exact N. reflexivity.
Qed.

Lemma consistent_release (b : positive) (cb : ControlBlock.t) :
  H !! b = Some (Live cb) ->
  consistent (State O (<[b := Freed]> H)
                    ((T ++ deleter_events b cb) ++ [EvDeleteBlock b])).
Proof.
  destruct C as (C1 & C2 & C3); cbn [objs heap trace] in C1, C2, C3. intros L. split; [|split]; cbn [objs heap trace].
  - intros h o E. apply handle_ok_freed. apply (C1 h o E).
  - intros b' cb' L'. destruct (decide (b = b')) as [->|N].
    + rewrite lookup_insert_eq in L'. discriminate.
    + rewrite lookup_insert_ne in L' by exact N. apply (C2 b' cb' L').
  - intros b'. rewrite <- app_assoc, calls_in_app, (C3 b'). cbn [heap trace].
    destruct (decide (b = b')) as [->|N].
    + rewrite lookup_insert_eq, L, calls_in_release. reflexivity.
    + rewrite lookup_insert_ne by exact N.
      rewrite calls_in_release_other by congruence. lia.
Qed.

Lemma consistent_alloc (cb : ControlBlock.t) :
  block_ok cb ->
  consistent (State O (<[fresh (dom H) := Live cb]> H) T).
Proof.
  destruct C as (C1 & C2 & C3); cbn [objs heap trace] in C1, C2, C3. intros B. split; [|split]; cbn [objs heap trace].
  - intros h o E. apply handle_ok_alloc. apply (C1 h o E).
  - intros b' cb' L'. destruct (decide (fresh (dom H) = b')) as [<-|N].
    + rewrite lookup_insert_eq in L'. injection L' as <-. exact B.
    + rewrite lookup_insert_ne in L' by exact N. apply (C2 b' cb' L').
  - intros b'. rewrite (C3 b'). cbn [heap].
    destruct (decide (fresh (dom H) = b')) as [<-|N].
    + rewrite lookup_insert_eq, fresh_heap_None. reflexivity.
    + rewrite lookup_insert_ne by exact N. reflexivity.
Qed.
End Consistent.

Lemma consistent_empty : consistent empty_state.
Proof.
  split; [|split]; cbn.
  - intros h o E. rewrite lookup_empty in E. discriminate.
  - intros b cb E. rewrite lookup_empty in E. discriminate.
  - intros b. rewrite lookup_empty. reflexivity.
Qed.

Lemma block_ok_ctor (p : Z) (d : deleter) : block_ok (ControlBlock_ctor_deleter p d).
Proof. split; [reflexivity|]. cbn. split; [lia | reflexivity]. Qed.

(** ** Every operation keeps a state consistent *)

Ltac side :=
  first
    [ assumption
    | apply lookup_insert_eq
    | (rewrite lookup_insert_ne by congruence; assumption)
    | apply wrap_size_t_range
    | apply handle_ok_empty
    | apply block_ok_ctor
    | (split; [reflexivity | split; [lia | reflexivity]])
    | (match goal with
       | |- context [if ?c then _ else _] => destruct c
       end; [split; [lia | reflexivity] | apply wrap_size_t_range])
    | lia ].

Ltac peel :=
  repeat first
    [ assumption
    | apply consistent_end_handle
    | apply consistent_set_handle
    | (apply consistent_alloc; [|side])
    | (eapply consistent_release; [|side])
    | (eapply consistent_set_shared; [|side|side]) ].

Lemma reset_consistent (this : nat) (s : state) (u : unit) (s' : state) :
  consistent s -> reset this s = Ok u s' -> consistent s'.
Proof.
  destruct s as [O H T]. intros C E. unfold reset in E. sym; peel; side.
Qed.

Ltac new_owner :=
  unfold handle_ok; cbn; rewrite lookup_insert_eq; reflexivity.

Lemma shared_ptr_ctor_consistent (p : Z) (s : state) (h : nat) (s' : state) :
  consistent s -> shared_ptr_ctor p s = Ok h s' -> consistent s'.
Proof.
  destruct s as [O H T]. intros C E. unfold shared_ptr_ctor in E. sym;
    rewrite ?insert_insert_eq; peel; first [side | new_owner].
Qed.

Lemma shared_ptr_ctor_deleter_consistent (p : Z) (d : deleter) (s : state)
      (h : nat) (s' : state) :
  consistent s -> shared_ptr_ctor_deleter p d s = Ok h s' -> consistent s'.
Proof.
  destruct s as [O H T]. intros C E. unfold shared_ptr_ctor_deleter in E. sym;
    rewrite ?insert_insert_eq; peel; first [side | new_owner].
Qed.

Lemma reset_ptr_consistent (this : nat) (p : Z) (s : state) (u : unit)
      (s' : state) :
  consistent s -> reset_ptr this p s = Ok u s' -> consistent s'.
Proof.
  destruct s as [O H T]. intros C E. unfold reset_ptr in E. sym;
    rewrite ?insert_insert_eq; peel; first [side | new_owner].
Qed.

Lemma consistent_weak (O : gmap nat shared_ptr.t) (H : gmap positive cell)
      (T : list event) (b : positive) (cb : ControlBlock.t) :
  consistent (State O H T) -> H !! b = Some (Live cb) ->
  ControlBlock.weak_refs_ cb = 0.
Proof. intros (_ & C2 & _) L. apply (C2 b cb L). Qed.

Lemma shared_ptr_dtor_consistent (this : nat) (s : state) (u : unit)
      (s' : state) :
  consistent s -> shared_ptr_dtor this s = Ok u s' -> consistent s'.
Proof.
  destruct s as [O H T]. intros C E. unfold shared_ptr_dtor, release in E. sym.
  all: try (peel; side).
  exfalso. cbn in Heqb0.
  match goal with
  | L : H !! _ = Some (Live ?cb) |- _ =>
      rewrite (consistent_weak O H T _ cb C L) in Heqb0
  end.
  discriminate.
Qed.

Lemma shared_ptr_eta (o : shared_ptr.t) :
  shared_ptr.Build (shared_ptr.ptr_ o) (shared_ptr.control_block_ptr o) = o.
Proof. destruct o. reflexivity. Qed.

Ltac old_handle C :=
  rewrite ?shared_ptr_eta;
  repeat first
    [ (apply handle_ok_set_shared; [side|])
    | apply handle_ok_freed
    | apply handle_ok_alloc ];
  eapply (consistent_lookup _ _ _ C); eassumption.

Lemma copy_ctor_consistent (other : nat) (s : state) (h : nat) (s' : state) :
  consistent s -> copy_ctor other s = Ok h s' -> consistent s'.
Proof.
  destruct s as [O H T]. intros C E. unfold copy_ctor in E. sym;
    rewrite ?insert_insert_eq; try discriminate.
  peel. old_handle C.
Qed.

Lemma copy_assign_consistent (this other : nat) (s : state) (u : unit)
      (s' : state) :
  consistent s -> copy_assign this other s = Ok u s' -> consistent s'.
Proof.
  destruct s as [O H T]. intros C E. unfold copy_assign in E.
  destruct (Nat.eqb_spec this other) as [->|N].
  { apply ret_inv in E as (_ & ->). exact C. }
  sym; rewrite ?insert_insert_eq; try discriminate.
  all: peel.
  all: try old_handle C.
Qed.

Lemma move_assign_consistent (this other : nat) (s : state) (u : unit)
      (s' : state) :
  consistent s -> move_assign this other s = Ok u s' -> consistent s'.
Proof.
  destruct s as [O H T]. intros C E. unfold move_assign in E.
  destruct (decide (this = other)) as [->|N].
  - sym; rewrite ?insert_insert_eq; try discriminate.
    all: peel. all: try side. 
  - sym; rewrite ?insert_insert_eq; try discriminate.
    all: peel. all: try side. all: try old_handle C.
Qed.

(** The accessors leave the state as it is. *)
Lemma observers_pure (this : nat) (s : state) :
  (forall a s', get this s = Ok a s' -> s' = s)
  /\ (forall a s', arrow this s = Ok a s' -> s' = s)
  /\ (forall a s', use_count this s = Ok a s' -> s' = s)
  /\ (forall a s', get_shared_cnt this s = Ok a s' -> s' = s)
  /\ (forall a s', get_weak_cnt this s = Ok a s' -> s' = s)
  /\ (forall a s', operator_bool this s = Ok a s' -> s' = s)
  /\ (forall a s', eq_nullptr this s = Ok a s' -> s' = s).
Proof.
  repeat split; intros a s' E;
    unfold get, arrow, use_count, get_shared_cnt, get_weak_cnt, operator_bool,
      eq_nullptr in E; sym; reflexivity.
Qed.

Lemma exec_consistent (c : call) (s s' : state) (u : unit) :
  consistent s -> exec c s = Ok u s' -> consistent s'.
Proof.
  intros C E.
  destruct (observers_pure
              match c with
              | Get h | Arrow h | UseCount h | GetSharedCnt h | GetWeakCnt h
              | ToBool h | IsNull h => h
              | _ => 0%nat
              end s) as (P1 & P2 & P3 & P4 & P5 & P6 & P7).
  destruct c; cbn [exec] in E;
    try (apply bind_inv in E as (a & s1 & E1 & E2);
         apply ret_inv in E2 as (_ & ->)).
  - apply (shared_ptr_ctor_consistent _ _ _ _ C E1).
  - apply (shared_ptr_ctor_deleter_consistent _ _ _ _ _ C E1).
  - apply (copy_ctor_consistent _ _ _ _ C E1).
  - apply (shared_ptr_dtor_consistent _ _ _ _ C E).
  - apply (copy_assign_consistent _ _ _ _ _ C E).
  - apply (move_assign_consistent _ _ _ _ _ C E).
  - apply (reset_consistent _ _ _ _ C E).
  - apply (reset_ptr_consistent _ _ _ _ _ C E).
  - rewrite (P1 _ _ E1). exact C.
  - rewrite (P2 _ _ E1). exact C.
  - rewrite (P3 _ _ E1). exact C.
  - rewrite (P4 _ _ E1). exact C.
  - rewrite (P5 _ _ E1). exact C.
  - rewrite (P6 _ _ E1). exact C.
  - rewrite (P7 _ _ E1). exact C.
Qed.

Lemma run_calls_consistent (prog : list call) :
  forall (s s' : state) (u : unit),
    consistent s -> run_calls prog s = Ok u s' -> consistent s'.
Proof.
  induction prog as [|c prog IH]; intros s s' u C E; cbn [run_calls] in E.
  - apply ret_inv in E as (_ & ->). exact C.
  - apply bind_inv in E as (a & s1 & E1 & E2).
    apply (IH s1 s' u); [|exact E2]. apply (exec_consistent c s s1 a C E1).
Qed.

(** ** Every operation lets the heap evolve *)

Lemma evolves_refl (s : state) : evolves s s.
Proof.
  split; [auto|]. split.
  - intros b cb L. right. exists cb. auto.
  - exists []. rewrite app_nil_r. reflexivity.
Qed.

Lemma evolves_trans (s1 s2 s3 : state) :
  evolves s1 s2 -> evolves s2 s3 -> evolves s1 s3.
Proof.
  intros (F1 & L1 & T1 & E1) (F2 & L2 & T2 & E2). split; [auto|]. split.
  - intros b cb L. destruct (L1 b cb L) as [Fr|(cb' & L' & P & D & W)].
    + left. auto.
    + destruct (L2 b cb' L') as [Fr|(cb'' & L'' & P' & D' & W')].
      * left. exact Fr.
      * right. exists cb''. repeat split; congruence.
  - exists (T1 ++ T2). rewrite E2, E1, app_assoc. reflexivity.
Qed.

Lemma evolves_objs (O O' : gmap nat shared_ptr.t) (H : gmap positive cell)
      (T : list event) :
  evolves (State O H T) (State O' H T).
Proof.
  split; [auto|]. split.
  - intros b cb L. right. exists cb. auto.
  - exists []. cbn [trace]. rewrite app_nil_r. reflexivity.
Qed.

Lemma evolves_trace (O : gmap nat shared_ptr.t) (H : gmap positive cell)
      (T T' : list event) :
  evolves (State O H T) (State O H (T ++ T')).
Proof.
  split; [auto|]. split.
  - intros b cb L. right. exists cb. auto.
  - exists T'. reflexivity.
Qed.

Lemma evolves_set_shared (O : gmap nat shared_ptr.t) (H : gmap positive cell)
      (T : list event) (b : positive) (cb : ControlBlock.t) (v : Z) :
  H !! b = Some (Live cb) ->
  evolves (State O H T) (State O (<[b := Live (set_shared v cb)]> H) T).
Proof.
  intros L. split; [|split]; cbn [heap trace].
  - intros b' F. rewrite lookup_insert_ne; [exact F|]. congruence.
  - intros b' cb' L'. right. destruct (decide (b = b')) as [->|N].
    + rewrite lookup_insert_eq. rewrite L in L'. injection L' as <-.
      eexists. split; [reflexivity|]. auto.
    + rewrite lookup_insert_ne by exact N. exists cb'. auto.
  - exists []. rewrite app_nil_r. reflexivity.
Qed.

Lemma evolves_delete (O : gmap nat shared_ptr.t) (H : gmap positive cell)
      (T : list event) (b : positive) (cb : ControlBlock.t) :
  H !! b = Some (Live cb) ->
  evolves (State O H T) (State O (<[b := Freed]> H) (T ++ [EvDeleteBlock b])).
Proof.
  intros L. split; [|split]; cbn [heap trace].
  - intros b' F. rewrite lookup_insert_ne; [exact F|]. congruence.
  - intros b' cb' L'. destruct (decide (b = b')) as [->|N].
    + left. apply lookup_insert_eq.
    + right. rewrite lookup_insert_ne by exact N. exists cb'. auto.
  - eexists. reflexivity.
Qed.

Lemma evolves_alloc (O : gmap nat shared_ptr.t) (H : gmap positive cell)
      (T : list event) (c : cell) :
  evolves (State O H T) (State O (<[fresh (dom H) := c]> H) T).
Proof.
  split; [|split]; cbn [heap trace].
  - intros b' F. rewrite lookup_insert_ne; [exact F|]. apply (fresh_heap_ne _ _ _ F).
  - intros b' cb' L'. right.
    rewrite lookup_insert_ne by apply (fresh_heap_ne _ _ _ L'). exists cb'. auto.
  - exists []. rewrite app_nil_r. reflexivity.
Qed.

Lemma steps_ret {A} (a : A) : steps (ret a).
Proof. intros s b s' E. apply ret_inv in E as (_ & ->). apply evolves_refl. Qed.

Lemma steps_bind {A B} (m : M A) (k : A -> M B) :
  steps m -> (forall a, steps (k a)) -> steps (bind m k).
Proof.
  intros Sm Sk s b s' E. apply bind_inv in E as (a & s1 & E1 & E2).
  apply (evolves_trans s s1 s'); [apply (Sm _ _ _ E1) | apply (Sk a _ _ _ E2)].
Qed.

Ltac prim_steps :=
  let s := fresh "s" in let a := fresh "a" in let s' := fresh "s'" in
  let E := fresh "E" in
  intros [? ? ?] a s' E; sym;
  first [ apply evolves_refl | apply evolves_objs | apply evolves_trace
        | (eapply evolves_set_shared; eassumption)
        | (eapply evolves_delete; eassumption)
        | apply evolves_alloc ].

Lemma steps_read_ptr_ (h : nat) : steps (read_ptr_ h).
Proof. prim_steps. Qed.
Lemma steps_read_control_block_ptr (h : nat) : steps (read_control_block_ptr h).
Proof. prim_steps. Qed.
Lemma steps_write_ptr_ (h : nat) (p : Z) : steps (write_ptr_ h p).
Proof. prim_steps. Qed.
Lemma steps_write_control_block_ptr (h : nat) (c : option positive) :
  steps (write_control_block_ptr h c).
Proof. prim_steps. Qed.
Lemma steps_shared_refs (b : positive) : steps (shared_refs b).
Proof. prim_steps. Qed.
Lemma steps_weak_refs (b : positive) : steps (weak_refs b).
Proof. prim_steps. Qed.
Lemma steps_increment_shared (b : positive) : steps (increment_shared b).
Proof. prim_steps. Qed.
Lemma steps_decrement_shared (b : positive) : steps (decrement_shared b).
Proof. prim_steps. Qed.
Lemma steps_call_deleter (b : positive) : steps (call_deleter b).
Proof. prim_steps. Qed.
Lemma steps_delete_block (b : positive) : steps (delete_block b).
Proof. prim_steps. Qed.
Lemma steps_new_block (cb : ControlBlock.t) : steps (new_block cb).
Proof. prim_steps. Qed.
Lemma steps_new_obj : steps new_obj.
Proof. prim_steps. Qed.
Lemma steps_end_obj (h : nat) : steps (end_obj h).
Proof. prim_steps. Qed.
Lemma steps_deref (c : option positive) : steps (deref c).
Proof. prim_steps. Qed.

Ltac steps_tac :=
  repeat first
    [ apply steps_ret
    | apply steps_read_ptr_ | apply steps_read_control_block_ptr
    | apply steps_write_ptr_ | apply steps_write_control_block_ptr
    | apply steps_shared_refs | apply steps_weak_refs
    | apply steps_increment_shared | apply steps_decrement_shared
    | apply steps_call_deleter | apply steps_delete_block
    | apply steps_new_block | apply steps_new_obj | apply steps_end_obj
    | apply steps_deref
    | (apply steps_bind; [|intros ?])
    | match goal with
      | |- steps (match ?c with Some _ => _ | None => _ end) => destruct c
      | |- steps (if ?c then _ else _) => destruct c
      end ].

Lemma steps_exec (c : call) : steps (exec c).
Proof.
  destruct c; cbn [exec];
    unfold shared_ptr_ctor, shared_ptr_ctor_deleter, copy_ctor, shared_ptr_dtor,
      release, copy_assign, move_assign, reset, reset_ptr, get, arrow,
      use_count, get_shared_cnt, get_weak_cnt, operator_bool, eq_nullptr;
    steps_tac.
Qed.

Lemma steps_run_calls (prog : list call) : steps (run_calls prog).
Proof.
  induction prog as [|c prog IH]; cbn [run_calls].
  - apply steps_ret.
  - apply steps_bind; [apply steps_exec | intros _; exact IH].
Qed.

(** ** Counting owners *)

Lemma owners_insert_fresh (b : positive) (O : gmap nat shared_ptr.t)
      (H H' : gmap positive cell) (T T' : list event) (h : nat)
      (o : shared_ptr.t) :
  O !! h = None ->
  owners b (State (<[h := o]> O) H T)
  = (owners b (State O H' T') + weight b o)%nat.
Proof.
  intros N. unfold owners, weight. cbn [objs].
  rewrite map_filter_insert. cbn [snd].
  destruct (decide (shared_ptr.control_block_ptr o = Some b)) as [E|E].
  - rewrite map_size_insert_None; [lia|].
    apply map_lookup_filter_None_2. left. exact N.
  - rewrite delete_id by exact N. lia.
Qed.

Lemma owners_end (b : positive) (O : gmap nat shared_ptr.t)
      (H H' : gmap positive cell) (T T' : list event) (h : nat)
      (o : shared_ptr.t) :
  O !! h = Some o ->
  owners b (State O H T)
  = (owners b (State (delete h O) H' T') + weight b o)%nat.
Proof.
  intros E. rewrite <- (insert_delete_id O h o E) at 1.
  apply owners_insert_fresh. apply lookup_delete_eq.
Qed.

Lemma owners_le_size (b : positive) (s : state) :
  (owners b s <= size (objs s))%nat.
Proof. unfold owners. apply map_subseteq_size, map_filter_subseteq. Qed.

Lemma weight_owner (b : positive) (o : shared_ptr.t) :
  shared_ptr.control_block_ptr o = Some b -> weight b o = 1%nat.
Proof. intros E. unfold weight. rewrite decide_True by exact E. reflexivity. Qed.

Lemma weight_other (b : positive) (o : shared_ptr.t) :
  shared_ptr.control_block_ptr o <> Some b -> weight b o = 0%nat.
Proof. intros E. unfold weight. rewrite decide_False by exact E. reflexivity. Qed.

Lemma counted_empty : counted empty_state.
Proof.
  intros b. cbn. rewrite lookup_empty. unfold owners. cbn.
  rewrite map_filter_empty. apply map_size_empty.
Qed.

(** An owner in a counted state points to a live block. *)
Lemma counted_owner_live (s : state) (h : nat) (o : shared_ptr.t) (b : positive) :
  counted s ->
  objs s !! h = Some o ->
  shared_ptr.control_block_ptr o = Some b ->
  exists cb, heap s !! b = Some (Live cb)
             /\ ControlBlock.shared_refs_ cb = Z.of_nat (owners b s)
             /\ (0 < owners b s)%nat.
Proof.
  intros K E N. pose proof (K b) as Kb.
  destruct s as [O H T]. cbn [objs heap] in *.
  rewrite (owners_end b O H H T T h o E), (weight_owner b o N) in Kb.
  destruct (H !! b) as [[cb|]|]; [|lia|lia].
  exists cb. split; [reflexivity|].
  rewrite (owners_end b O H H T T h o E), (weight_owner b o N). exact Kb.
Qed.

Ltac by_block b b' :=
  destruct (decide (b = b')) as [->|?];
  [ rewrite ?lookup_insert_eq | rewrite ?lookup_insert_ne by congruence ].

Lemma shared_ptr_ctor_deleter_counted_state (O : gmap nat shared_ptr.t)
      (H : gmap positive cell) (T : list event) (p : Z) (cb : ControlBlock.t) :
  counted (State O H T) ->
  ControlBlock.shared_refs_ cb = 1 ->
  counted (State (<[fresh (dom O) := shared_ptr.Build p (Some (fresh (dom H)))]> O)
                 (<[fresh (dom H) := Live cb]> H) T).
Proof.
  intros K C1 b. pose proof (K b) as Kb. cbn [objs heap] in *.
  rewrite (owners_insert_fresh b O _ H T T _ _ (fresh_objs_None O)).
  by_block b (fresh (dom H)).
  - rewrite fresh_heap_None in Kb. rewrite Kb, weight_owner by reflexivity.
    split; [rewrite C1; reflexivity | lia].
  - rewrite weight_other by (cbn; congruence). rewrite Nat.add_0_r. exact Kb.
Qed.

Lemma empty_handle_counted_state (O : gmap nat shared_ptr.t)
      (H : gmap positive cell) (T : list event) (p : Z) :
  counted (State O H T) ->
  counted (State (<[fresh (dom O) := shared_ptr.Build p None]> O) H T).
Proof.
  intros K b. pose proof (K b) as Kb. cbn [objs heap] in *.
  rewrite (owners_insert_fresh b O _ H T T _ _ (fresh_objs_None O)).
  rewrite weight_other by (cbn; congruence). rewrite Nat.add_0_r. exact Kb.
Qed.

Lemma shared_ptr_ctor_counted (p : Z) (s : state) (h : nat) (s' : state) :
  counted s -> shared_ptr_ctor p s = Ok h s' -> counted s'.
Proof.
  destruct s as [O H T]. intros K E. unfold shared_ptr_ctor in E. sym;
    rewrite ?insert_insert_eq.
  - apply (empty_handle_counted_state O H T _ K).
  - apply (shared_ptr_ctor_deleter_counted_state O H T _ _ K). reflexivity.
Qed.

Lemma shared_ptr_ctor_deleter_counted (p : Z) (d : deleter) (s : state)
      (h : nat) (s' : state) :
  counted s -> shared_ptr_ctor_deleter p d s = Ok h s' -> counted s'.
Proof.
  destruct s as [O H T]. intros K E. unfold shared_ptr_ctor_deleter in E. sym;
    rewrite ?insert_insert_eq.
  - apply (empty_handle_counted_state O H T _ K).
  - apply (shared_ptr_ctor_deleter_counted_state O H T _ _ K). reflexivity.
Qed.

Lemma copy_ctor_counted (other : nat) (s : state) (h : nat) (s' : state) :
  counted s ->
  Z.of_nat (size (objs s)) + 1 < size_t_modulus ->
  copy_ctor other s = Ok h s' -> counted s'.
Proof.
  destruct s as [O H T]. cbn [objs]. intros K B E. unfold copy_ctor in E. sym;
    rewrite ?insert_insert_eq; try discriminate.
  rewrite shared_ptr_eta.
  match goal with
  | Eo : O !! other = Some ?o, N : shared_ptr.control_block_ptr ?o = Some ?b0,
    L : H !! ?b0 = Some (Live ?cb) |- _ =>
      destruct (counted_owner_live _ other o b0 K Eo N) as (cb' & L' & C & P);
      cbn [heap] in L'; rewrite L in L'; injection L' as <-;
      pose proof (owners_le_size b0 (State O H T)) as Le; cbn [objs] in Le;
      intros b; pose proof (K b) as Kb; cbn [objs heap] in *;
      rewrite (owners_insert_fresh b O _ H T T _ o (fresh_objs_None O));
      by_block b b0
  end.
  - rewrite weight_owner by assumption. cbn [set_shared ControlBlock.shared_refs_].
    rewrite wrap_size_t_small by lia. split; lia.
  - rewrite weight_other by congruence. rewrite Nat.add_0_r. exact Kb.
Qed.

Lemma shared_ptr_dtor_counted (this : nat) (s : state) (u : unit) (s' : state) :
  counted s -> consistent s ->
  Z.of_nat (size (objs s)) < size_t_modulus ->
  shared_ptr_dtor this s = Ok u s' -> counted s'.
Proof.
  destruct s as [O H T]. cbn [objs]. intros K C B E.
  unfold shared_ptr_dtor, release in E. sym.
  all: match goal with
       | Eo : ?O' !! ?h = Some ?o, K' : counted (State ?O' ?H' ?T') |- _ =>
           intros b; pose proof (K' b) as Kb; cbn [objs heap] in *;
           rewrite (owners_end b O' H' H' T' T' h o Eo) in Kb
       end.
  7: { rewrite weight_other in Kb by congruence. rewrite Nat.add_0_r in Kb.
       exact Kb. }
  all: match goal with
       | Eo : ?O' !! ?h = Some ?o, N : shared_ptr.control_block_ptr ?o = Some ?b0,
         L : ?H' !! ?b0 = Some (Live ?cb), K' : counted (State ?O' ?H' ?T'),
         C' : consistent _ |- _ =>
           destruct (counted_owner_live _ h o b0 K' Eo N) as (cb' & L' & Cn & P);
           cbn [heap] in L'; rewrite L in L'; injection L' as <-;
           pose proof (owners_le_size b0 (State O' H' T')) as Le; cbn [objs] in Le;
           pose proof (consistent_weak O' H' T' b0 cb C' L) as W;
           assert (D : (if ControlBlock.shared_refs_ cb =? 0 then 0
                        else wrap_size_t (ControlBlock.shared_refs_ cb - 1))
                       = ControlBlock.shared_refs_ cb - 1)
             by (destruct (Z.eqb_spec (ControlBlock.shared_refs_ cb) 0);
                 [lia | apply wrap_size_t_small; lia]);
           rewrite D in *;
           by_block b b0
       end.
  all: cbn [set_shared ControlBlock.shared_refs_ ControlBlock.weak_refs_] in *.
  all: try (rewrite weight_other in Kb by congruence;
            rewrite Nat.add_0_r in Kb; exact Kb).
  all: rewrite weight_owner in Kb by assumption.
  all: repeat match goal with
         | Q : (_ =? 0) = true |- _ => apply Z.eqb_eq in Q
         | Q : (_ =? 0) = false |- _ => apply Z.eqb_neq in Q
         end.
  all: match goal with
       | L : ?H' !! ?b0 = Some (Live ?cb), Kb : context [?H' !! ?b0] |- _ =>
           rewrite L in Kb
       end.
  all: unfold owners in *; cbn [objs] in *; lia.
Qed.

Lemma size_after_call (c : call) (s s' : state) (u : unit) :
  no_overwrite c = true ->
  exec c s = Ok u s' ->
  (size (objs s') <= S (size (objs s)))%nat.
Proof.
  intros F E.
  destruct (observers_pure
              match c with
              | Get h | Arrow h | UseCount h | GetSharedCnt h | GetWeakCnt h
              | ToBool h | IsNull h => h
              | _ => 0%nat
              end s) as (P1 & P2 & P3 & P4 & P5 & P6 & P7).
  destruct s as [O H T].
  destruct c; try discriminate F; cbn [exec] in E;
    try (apply bind_inv in E as (a & s1 & E1 & E2);
         apply ret_inv in E2 as (_ & ->)).
  - unfold shared_ptr_ctor in E1. sym; rewrite ?insert_insert_eq;
      rewrite map_size_insert_None by apply fresh_objs_None; lia.
  - unfold shared_ptr_ctor_deleter in E1. sym; rewrite ?insert_insert_eq;
      rewrite map_size_insert_None by apply fresh_objs_None; lia.
  - unfold copy_ctor in E1. sym; rewrite ?insert_insert_eq; try discriminate.
    rewrite map_size_insert_None by apply fresh_objs_None. lia.
  - unfold shared_ptr_dtor, release in E. sym;
      rewrite map_size_delete; destruct (O !! this); cbn; lia.
  - rewrite (P1 _ _ E1). lia.
  - rewrite (P2 _ _ E1). lia.
  - rewrite (P3 _ _ E1). lia.
  - rewrite (P4 _ _ E1). lia.
  - rewrite (P5 _ _ E1). lia.
  - rewrite (P6 _ _ E1). lia.
  - rewrite (P7 _ _ E1). lia.
Qed.

Lemma exec_counted (c : call) (s s' : state) (u : unit) :
  no_overwrite c = true ->
  counted s -> consistent s ->
  Z.of_nat (size (objs s)) + 1 < size_t_modulus ->
  exec c s = Ok u s' -> counted s'.
Proof.
  intros F K C B E.
  destruct (observers_pure
              match c with
              | Get h | Arrow h | UseCount h | GetSharedCnt h | GetWeakCnt h
              | ToBool h | IsNull h => h
              | _ => 0%nat
              end s) as (P1 & P2 & P3 & P4 & P5 & P6 & P7).
  destruct c; try discriminate F; cbn [exec] in E;
    try (apply bind_inv in E as (a & s1 & E1 & E2);
         apply ret_inv in E2 as (_ & ->)).
  - apply (shared_ptr_ctor_counted _ _ _ _ K E1).
  - apply (shared_ptr_ctor_deleter_counted _ _ _ _ _ K E1).
  - apply (copy_ctor_counted _ _ _ _ K B E1).
  - apply (shared_ptr_dtor_counted _ _ _ _ K C ltac:(lia) E).
  - rewrite (P1 _ _ E1). exact K.
  - rewrite (P2 _ _ E1). exact K.
  - rewrite (P3 _ _ E1). exact K.
  - rewrite (P4 _ _ E1). exact K.
  - rewrite (P5 _ _ E1). exact K.
  - rewrite (P6 _ _ E1). exact K.
  - rewrite (P7 _ _ E1). exact K.
Qed.

Lemma run_calls_counted (prog : list call) :
  forall (s s' : state) (u : unit),
    forallb no_overwrite prog = true ->
    counted s -> consistent s ->
    Z.of_nat (size (objs s)) + Z.of_nat (length prog) < size_t_modulus ->
    run_calls prog s = Ok u s' -> counted s'.
Proof.
  induction prog as [|c prog IH]; intros s s' u F K C B E;
    cbn [run_calls forallb length] in *.
  - apply ret_inv in E as (_ & ->). exact K.
  - apply andb_prop in F as (Fc & F).
    apply bind_inv in E as (a & s1 & E1 & E2).
    pose proof (size_after_call c s s1 a Fc E1) as Sz.
    apply (IH s1 s' u F); [| |lia|exact E2].
    + apply (exec_counted c s s1 a Fc K C); [lia | exact E1].
    + apply (exec_consistent c s s1 a C E1).
Qed.

(** ** More operations on an explicit state *)

Section MoreRuns.
Variables (O : gmap nat shared_ptr.t) (H : gmap positive cell) (T : list event).

Lemma shared_ptr_dtor_last_weak (this : nat)
      (o : shared_ptr.t) (b : positive) (cb : ControlBlock.t) :
  O !! this = Some o ->
  shared_ptr.control_block_ptr o = Some b ->
  H !! b = Some (Live cb) ->
  ControlBlock.shared_refs_ cb = 1 ->
  ControlBlock.weak_refs_ cb <> 0 ->
  shared_ptr_dtor this (State O H T)
  = Ok tt (State (delete this O) (<[b := Live (set_shared 0 cb)]> H)
                 (T ++ deleter_events b cb)).
Proof.
  intros E N L C W. unfold shared_ptr_dtor, release. step. rewrite N.
  step. rewrite C. simpl. step. step. step. step.
  apply Z.eqb_neq in W. rewrite W. simpl. run. reflexivity.
Qed.

Lemma shared_ptr_dtor_empty (this : nat) (o : shared_ptr.t) :
  O !! this = Some o ->
  shared_ptr.control_block_ptr o = None ->
  shared_ptr_dtor this (State O H T) = Ok tt (State (delete this O) H T).
Proof.
  intros E N. unfold shared_ptr_dtor. step. rewrite N. run. reflexivity.
Qed.

Lemma shared_ptr_ctor_deleter_nonnull (p : Z) (d : deleter) :
  p <> nullptr ->
  shared_ptr_ctor_deleter p d (State O H T)
  = Ok (fresh (dom O))
       (State (<[fresh (dom O) := shared_ptr.Build p (Some (fresh (dom H)))]> O)
              (<[fresh (dom H) := Live (ControlBlock_ctor_deleter p d)]> H) T).
Proof.
  intros Hp. unfold shared_ptr_ctor_deleter. step. step. step.
  apply Z.eqb_neq in Hp. rewrite Hp. step. step.
  rewrite !insert_insert_eq. reflexivity.
Qed.

Lemma shared_ptr_ctor_deleter_null (d : deleter) :
  shared_ptr_ctor_deleter nullptr d (State O H T)
  = Ok (fresh (dom O))
       (State (<[fresh (dom O) := shared_ptr.Build nullptr None]> O) H T).
Proof.
  unfold shared_ptr_ctor_deleter. step. step. step. rewrite insert_insert_eq.
  reflexivity.
Qed.

(** Copy assignment onto the last owner of a block, from an owner of
    another live block. *)
Lemma copy_assign_sole (this other : nat) (o oo : shared_ptr.t)
      (b b' : positive) (cb cb' : ControlBlock.t) :
  this <> other ->
  O !! this = Some o ->
  shared_ptr.control_block_ptr o = Some b ->
  H !! b = Some (Live cb) ->
  ControlBlock.shared_refs_ cb = 1 ->
  O !! other = Some oo ->
  shared_ptr.control_block_ptr oo = Some b' ->
  b' <> b ->
  H !! b' = Some (Live cb') ->
  copy_assign this other (State O H T)
  = Ok tt (State (<[this := oo]> O)
      (<[b' := Live (set_shared
           (wrap_size_t (ControlBlock.shared_refs_ cb' + 1)) cb')]>
         (<[b := Freed]> H))
      (T ++ deleter_events b cb ++ [EvDeleteBlock b])).
Proof.
  intros Hne E N L C E' N' Hb L'. unfold copy_assign.
  apply Nat.eqb_neq in Hne as Hneb. rewrite Hneb.
  step. rewrite N. step. rewrite C. simpl.
  assert (L2 : <[b := Freed]> H !! b' = Some (Live cb'))
    by (rewrite lookup_insert_ne by congruence; exact L').
  do 7 step. rewrite N'.
  rewrite (increment_shared_Ok _ _ _ b' cb' L2).
  rewrite insert_insert_eq, <- app_assoc. destruct oo; simpl in *; subst.
  reflexivity.
Qed.

(** Copy assignment onto the last owner of a block, from an empty handle. *)
Lemma copy_assign_sole_from_empty (this other : nat) (o oo : shared_ptr.t)
      (b : positive) (cb : ControlBlock.t) :
  this <> other ->
  O !! this = Some o ->
  shared_ptr.control_block_ptr o = Some b ->
  H !! b = Some (Live cb) ->
  ControlBlock.shared_refs_ cb = 1 ->
  O !! other = Some oo ->
  shared_ptr.control_block_ptr oo = None ->
  copy_assign this other (State O H T)
  = Ok tt (State (<[this := oo]> O) (<[b := Freed]> H)
                 (T ++ deleter_events b cb ++ [EvDeleteBlock b])).
Proof.
  intros Hne E N L C E' N'. unfold copy_assign.
  apply Nat.eqb_neq in Hne as Hneb. rewrite Hneb.
  step. rewrite N. step. rewrite C. simpl.
  do 7 step. rewrite N'.
  rewrite insert_insert_eq, <- app_assoc. destruct oo; simpl in *; subst.
  reflexivity.
Qed.

(** Move assignment of a handle to itself. *)
Lemma move_assign_self_owner (this : nat) (o : shared_ptr.t) (b : positive)
      (cb : ControlBlock.t) :
  O !! this = Some o ->
  shared_ptr.control_block_ptr o = Some b ->
  H !! b = Some (Live cb) ->
  move_assign this this (State O H T)
  = Ok tt (State (<[this := shared_ptr.Build nullptr None]> O)
                 (<[b := Freed]> H)
                 (T ++ deleter_events b cb ++ [EvDeleteBlock b])).
Proof.
  intros E N L. unfold move_assign. step. rewrite N. run.
  rewrite !insert_insert_eq, <- app_assoc. reflexivity.
Qed.

Lemma move_assign_self_empty (this : nat) (o : shared_ptr.t) :
  O !! this = Some o ->
  shared_ptr.control_block_ptr o = None ->
  move_assign this this (State O H T)
  = Ok tt (State (<[this := shared_ptr.Build nullptr None]> O) H T).
Proof.
  intros E N. unfold move_assign. step. rewrite N. run.
  rewrite !insert_insert_eq. reflexivity.
Qed.

Lemma get_shared_cnt_Ok (this : nat) (o : shared_ptr.t) (b : positive)
      (cb : ControlBlock.t) :
  O !! this = Some o ->
  shared_ptr.control_block_ptr o = Some b ->
  H !! b = Some (Live cb) ->
  get_shared_cnt this (State O H T)
  = Ok (ControlBlock.shared_refs_ cb) (State O H T).
Proof. intros E N L. unfold get_shared_cnt. step. rewrite N. run. reflexivity. Qed.

Lemma get_weak_cnt_Ok (this : nat) (o : shared_ptr.t) (b : positive)
      (cb : ControlBlock.t) :
  O !! this = Some o ->
  shared_ptr.control_block_ptr o = Some b ->
  H !! b = Some (Live cb) ->
  get_weak_cnt this (State O H T)
  = Ok (ControlBlock.weak_refs_ cb) (State O H T).
Proof. intros E N L. unfold get_weak_cnt. step. rewrite N. run. reflexivity. Qed.

Lemma get_cnt_empty (this : nat) (o : shared_ptr.t) :
  O !! this = Some o ->
  shared_ptr.control_block_ptr o = None ->
  get_shared_cnt this (State O H T) = UB NullDereference
  /\ get_weak_cnt this (State O H T) = UB NullDereference.
Proof.
  intros E N. unfold get_shared_cnt, get_weak_cnt. split; step; rewrite N;
    reflexivity.
Qed.
End MoreRuns.

(** ** Single operations *)

Lemma shared_set_shared (v : Z) (cb : ControlBlock.t) :
  ControlBlock.shared_refs_ (set_shared v cb) = v.
Proof. reflexivity. Qed.

Lemma set_shared_twice (v w : Z) (cb : ControlBlock.t) :
  set_shared v (set_shared w cb) = set_shared v cb.
Proof. reflexivity. Qed.

(** X1.  The destructor of a handle whose block has count 1 calls the
    deleter of the block exactly once and ends the handle.  With no weak
    reference the block is deleted as well; with a weak count that is not
    zero the block stays allocated with count 0. *)
Theorem X1_destructor_of_last_owner (this : nat) (s : state)
        (o : shared_ptr.t) (b : positive) (cb : ControlBlock.t) :
  objs s !! this = Some o ->
  shared_ptr.control_block_ptr o = Some b ->
  heap s !! b = Some (Live cb) ->
  ControlBlock.shared_refs_ cb = 1 ->
  exists s',
    shared_ptr_dtor this s = Ok tt s'
    /\ objs s' = delete this (objs s)
    /\ deleter_calls b s' = S (deleter_calls b s)
    /\ (ControlBlock.weak_refs_ cb = 0 ->
        heap s' = <[b := Freed]> (heap s)
        /\ trace s' = trace s ++ deleter_events b cb ++ [EvDeleteBlock b])
    /\ (ControlBlock.weak_refs_ cb <> 0 ->
        heap s' = <[b := Live (set_shared 0 cb)]> (heap s)
        /\ trace s' = trace s ++ deleter_events b cb).
Proof.
  destruct s as [O H T]. cbn [objs heap trace]. intros E N L C.
  destruct (decide (ControlBlock.weak_refs_ cb = 0)) as [W|W].
  - eexists. split; [apply (shared_ptr_dtor_last O H T this o b cb E N L C W)|].
    cbn [objs heap trace]. split; [reflexivity|]. split.
    + unfold deleter_calls. cbn [trace].
      rewrite calls_in_app, calls_in_release. lia.
    + split; [intros _; split; reflexivity | intros W'; contradiction].
  - eexists. split; [apply (shared_ptr_dtor_last_weak O H T this o b cb E N L C W)|].
    cbn [objs heap trace]. split; [reflexivity|]. split.
    + unfold deleter_calls. cbn [trace].
      rewrite calls_in_app, calls_in_deleter_events. lia.
    + split; [intros W'; contradiction | intros _; split; reflexivity].
Qed.

Lemma X1_witness :
  exists s',
    shared_ptr_dtor 0 one_owner = Ok tt s'
    /\ objs s' = delete 0%nat (objs one_owner)
    /\ deleter_calls 1 s' = 1%nat
    /\ heap s' = <[1%positive := Freed]> (heap one_owner)
    /\ trace s' = [EvCallDeleter 1 my_default_deleter 100; EvDeletePayload 100;
                   EvDeleteBlock 1].
Proof.
  destruct (X1_destructor_of_last_owner 0 one_owner
              (shared_ptr.Build 100 (Some 1%positive)) 1 (ControlBlock_ctor 100))
    as (s' & E & Ob & D & W0 & _);
    [reflexivity | reflexivity | reflexivity | reflexivity |].
  destruct (W0 eq_refl) as (Hh & Tr).
  exists s'. repeat split; assumption.
Defined.

(** X2.  The destructor of a handle whose block has a count above 1 lowers
    the count by one and does nothing else: no deleter runs, the block stays
    allocated, and every other owner still returns its payload from [get()]
    and reports the lowered count. *)
Theorem X2_destructor_of_other_owner (this : nat) (s : state)
        (o : shared_ptr.t) (b : positive) (cb : ControlBlock.t) :
  objs s !! this = Some o ->
  shared_ptr.control_block_ptr o = Some b ->
  heap s !! b = Some (Live cb) ->
  1 < ControlBlock.shared_refs_ cb < size_t_modulus ->
  exists s',
    shared_ptr_dtor this s = Ok tt s'
    /\ objs s' = delete this (objs s)
    /\ heap s'
       = <[b := Live (set_shared (ControlBlock.shared_refs_ cb - 1) cb)]> (heap s)
    /\ trace s' = trace s
    /\ forall h o', h <> this ->
         objs s !! h = Some o' ->
         shared_ptr.control_block_ptr o' = Some b ->
         get h s' = Ok (shared_ptr.ptr_ o') s'
         /\ use_count h s' = Ok (to_long (ControlBlock.shared_refs_ cb - 1)) s'.
Proof.
  destruct s as [O H T]. cbn [objs heap trace]. intros E N L C.
  eexists. split; [apply (shared_ptr_dtor_shared O H T this o b cb E N L C)|].
  cbn [objs heap trace]. repeat split.
  - apply get_Ok. rewrite lookup_delete_ne by congruence. assumption.
  - rewrite (use_count_owning _ _ T h o' b
               (set_shared (ControlBlock.shared_refs_ cb - 1) cb)).
    + reflexivity.
    + rewrite lookup_delete_ne by congruence. assumption.
    + assumption.
    + apply lookup_insert_eq.
Qed.

Lemma X2_witness :
  exists s',
    shared_ptr_dtor 1 two_owners = Ok tt s'
    /\ trace s' = trace two_owners
    /\ get 0 s' = Ok 100 s'
    /\ use_count 0 s' = Ok 1 s'.
Proof.
  destruct (X2_destructor_of_other_owner 1 two_owners
              (shared_ptr.Build 100 (Some 1%positive)) 1
              (set_shared 2 (ControlBlock_ctor 100)))
    as (s' & E & _ & _ & Tr & Others);
    [reflexivity | reflexivity | reflexivity | split; reflexivity |].
  exists s'. split; [exact E|]. split; [exact Tr|].
  apply (Others 0%nat (shared_ptr.Build 100 (Some 1%positive)));
    [discriminate | reflexivity | reflexivity].
Defined.

(** X3.  Constructing a handle over a non-null pointer and destroying it
    leaves the handle store as it was, one new block allocated and freed,
    and exactly one deleter call on the payload.  Without a deleter argument
    that call is the default deleter, which deletes the payload; with a
    deleter supplied by the caller it is that deleter, and the default one
    does not run. *)
Theorem X3_construct_then_destroy (s : state) (p : Z) (name : nat) :
  p <> nullptr ->
  exists b,
    heap s !! b = None
    /\ (h <- shared_ptr_ctor p ;; shared_ptr_dtor h) s
       = Ok tt (State (objs s) (<[b := Freed]> (heap s))
                  (trace s ++ [EvCallDeleter b my_default_deleter p;
                               EvDeletePayload p; EvDeleteBlock b]))
    /\ (h <- shared_ptr_ctor_deleter p (user_deleter name) ;; shared_ptr_dtor h) s
       = Ok tt (State (objs s) (<[b := Freed]> (heap s))
                  (trace s ++ [EvCallDeleter b (user_deleter name) p;
                               EvDeleteBlock b])).
Proof.
  destruct s as [O H T]. cbn [objs heap trace]. intros Hp.
  exists (fresh (dom H)). split; [apply fresh_heap_None|]. split.
  - rewrite (bind_Ok _ _ _ _ _ (shared_ptr_ctor_nonnull O H T p Hp)).
    rewrite (shared_ptr_dtor_last _ _ T (fresh (dom O))
               (shared_ptr.Build p (Some (fresh (dom H)))) (fresh (dom H))
               (ControlBlock_ctor p));
      [|apply lookup_insert_eq | reflexivity | apply lookup_insert_eq
       | reflexivity | reflexivity].
    rewrite delete_insert_id by apply fresh_objs_None.
    rewrite insert_insert_eq. unfold deleter_events. cbn.
    apply Z.eqb_neq in Hp. rewrite Hp. reflexivity.
  - rewrite (bind_Ok _ _ _ _ _
               (shared_ptr_ctor_deleter_nonnull O H T p (user_deleter name) Hp)).
    rewrite (shared_ptr_dtor_last _ _ T (fresh (dom O))
               (shared_ptr.Build p (Some (fresh (dom H)))) (fresh (dom H))
               (ControlBlock_ctor_deleter p (user_deleter name)));
      [|apply lookup_insert_eq | reflexivity | apply lookup_insert_eq
       | reflexivity | reflexivity].
    rewrite delete_insert_id by apply fresh_objs_None.
    rewrite insert_insert_eq. reflexivity.
Qed.

Lemma X3_witness :
  exists b,
    heap one_owner !! b = None
    /\ (h <- shared_ptr_ctor 300 ;; shared_ptr_dtor h) one_owner
       = Ok tt (State (objs one_owner) (<[b := Freed]> (heap one_owner))
                  (trace one_owner ++ [EvCallDeleter b my_default_deleter 300;
                               EvDeletePayload 300; EvDeleteBlock b]))
    /\ (h <- shared_ptr_ctor_deleter 300 (user_deleter 7) ;; shared_ptr_dtor h)
         one_owner
       = Ok tt (State (objs one_owner) (<[b := Freed]> (heap one_owner))
                  (trace one_owner ++ [EvCallDeleter b (user_deleter 7) 300;
                               EvDeleteBlock b])).
Proof. apply (X3_construct_then_destroy one_owner 300 7). discriminate. Defined.

(** X4.  Constructing a handle over [nullptr], with or without a deleter,
    allocates no control block: the handle is empty, the deleter passed in
    is dropped and never called, and destroying the handle restores the
    state exactly. *)
Theorem X4_null_construct_then_destroy (s : state) (d : deleter) :
  (h <- shared_ptr_ctor nullptr ;; shared_ptr_dtor h) s = Ok tt s
  /\ (h <- shared_ptr_ctor_deleter nullptr d ;; shared_ptr_dtor h) s = Ok tt s
  /\ exists h s',
       shared_ptr_ctor_deleter nullptr d s = Ok h s'
       /\ operator_bool h s' = Ok false s'
       /\ heap s' = heap s
       /\ trace s' = trace s.
Proof.
  destruct s as [O H T]. split; [|split].
  - rewrite (bind_Ok _ _ _ _ _ (shared_ptr_ctor_null O H T)).
    rewrite (shared_ptr_dtor_empty _ H T (fresh (dom O))
               (shared_ptr.Build nullptr None));
      [|apply lookup_insert_eq | reflexivity].
    rewrite delete_insert_id by apply fresh_objs_None. reflexivity.
  - rewrite (bind_Ok _ _ _ _ _ (shared_ptr_ctor_deleter_null O H T d)).
    rewrite (shared_ptr_dtor_empty _ H T (fresh (dom O))
               (shared_ptr.Build nullptr None));
      [|apply lookup_insert_eq | reflexivity].
    rewrite delete_insert_id by apply fresh_objs_None. reflexivity.
  - eexists _, _. split; [apply shared_ptr_ctor_deleter_null|].
    split; [|split; reflexivity].
    apply (observe_empty _ H T (fresh (dom O)) nullptr). apply lookup_insert_eq.
Qed.

(** X5.  Copy-constructing from an owner and destroying the copy restores
    the state exactly, for a count between 1 and [2^64 - 2]. *)
Theorem X5_copy_then_destroy (other : nat) (s : state) (o : shared_ptr.t)
        (b : positive) (cb : ControlBlock.t) :
  objs s !! other = Some o ->
  shared_ptr.control_block_ptr o = Some b ->
  heap s !! b = Some (Live cb) ->
  1 <= ControlBlock.shared_refs_ cb ->
  ControlBlock.shared_refs_ cb + 1 < size_t_modulus ->
  (c <- copy_ctor other ;; shared_ptr_dtor c) s = Ok tt s.
Proof.
  destruct s as [O H T]. cbn [objs heap]. intros E N L C1 C2.
  rewrite (bind_Ok _ _ _ _ _ (copy_ctor_owning O H T other o b cb E N L)).
  rewrite wrap_size_t_small by lia.
  rewrite (shared_ptr_dtor_shared _ _ T (fresh (dom O)) o b
             (set_shared (ControlBlock.shared_refs_ cb + 1) cb));
    [|apply lookup_insert_eq | exact N | apply lookup_insert_eq | cbn; lia].
  rewrite delete_insert_id by apply fresh_objs_None.
  rewrite insert_insert_eq, shared_set_shared, set_shared_twice.
  replace (ControlBlock.shared_refs_ cb + 1 - 1) with (ControlBlock.shared_refs_ cb)
    by lia.
  rewrite set_shared_same, insert_id by exact L. reflexivity.
Qed.

Lemma X5_witness : (c <- copy_ctor 0 ;; shared_ptr_dtor c) two_owners = Ok tt two_owners.
Proof.
  apply (X5_copy_then_destroy 0 two_owners (shared_ptr.Build 100 (Some 1%positive))
           1 (set_shared 2 (ControlBlock_ctor 100)));
    [reflexivity | reflexivity | reflexivity | discriminate | reflexivity].
Defined.

Lemma live_count_insert (O : gmap nat shared_ptr.t) (H : gmap positive cell)
      (T : list event) (b : positive) (cb : ControlBlock.t) :
  live_count b (State O (<[b := Live cb]> H) T)
  = Some (ControlBlock.shared_refs_ cb).
Proof. unfold live_count. cbn [heap]. rewrite lookup_insert_eq. reflexivity. Qed.

(** X6.  [decrement_shared] stops at zero: on a count of 0 it changes
    nothing.  On a positive count it subtracts one.  [increment_shared] adds
    one and wraps from [2^64 - 1] to 0.  Below that bound an increment
    followed by a decrement restores the state, and on a positive count so
    does a decrement followed by an increment. *)
Theorem X6_counter_arithmetic (b : positive) (s : state) (cb : ControlBlock.t) :
  heap s !! b = Some (Live cb) ->
  0 <= ControlBlock.shared_refs_ cb < size_t_modulus ->
  (ControlBlock.shared_refs_ cb = 0 -> decrement_shared b s = Ok tt s)
  /\ (0 < ControlBlock.shared_refs_ cb ->
      (exists s', decrement_shared b s = Ok tt s'
                  /\ live_count b s' = Some (ControlBlock.shared_refs_ cb - 1))
      /\ (decrement_shared b ;; increment_shared b) s = Ok tt s)
  /\ (ControlBlock.shared_refs_ cb + 1 < size_t_modulus ->
      (exists s', increment_shared b s = Ok tt s'
                  /\ live_count b s' = Some (ControlBlock.shared_refs_ cb + 1))
      /\ (increment_shared b ;; decrement_shared b) s = Ok tt s)
  /\ (ControlBlock.shared_refs_ cb + 1 = size_t_modulus ->
      exists s', increment_shared b s = Ok tt s' /\ live_count b s' = Some 0).
Proof.
  destruct s as [O H T]. cbn [heap]. intros L R.
  pose proof (decrement_shared_Ok O H T b cb L) as D.
  pose proof (increment_shared_Ok O H T b cb L) as I.
  split; [|split; [|split]].
  - intros Z0. rewrite D, Z0. reflexivity.
  - intros P. destruct (Z.eqb_spec (ControlBlock.shared_refs_ cb) 0) as [?|_]; [lia|].
    rewrite wrap_size_t_small in D by lia. split.
    + eexists. split; [exact D|]. apply live_count_insert.
    + rewrite (bind_Ok _ _ _ _ _ D).
      rewrite (increment_shared_Ok O _ T b _ (lookup_insert_eq _ _ _)).
      rewrite shared_set_shared, set_shared_twice, insert_insert_eq.
      rewrite wrap_size_t_small by lia.
      replace (ControlBlock.shared_refs_ cb - 1 + 1)
        with (ControlBlock.shared_refs_ cb) by lia.
      rewrite set_shared_same, insert_id by exact L. reflexivity.
  - intros P. rewrite wrap_size_t_small in I by lia. split.
    + eexists. split; [exact I|]. apply live_count_insert.
    + rewrite (bind_Ok _ _ _ _ _ I).
      rewrite (decrement_shared_Ok O _ T b _ (lookup_insert_eq _ _ _)).
      rewrite shared_set_shared.
      destruct (Z.eqb_spec (ControlBlock.shared_refs_ cb + 1) 0) as [?|_]; [lia|].
      rewrite set_shared_twice, insert_insert_eq.
      rewrite wrap_size_t_small by lia.
      replace (ControlBlock.shared_refs_ cb + 1 - 1)
        with (ControlBlock.shared_refs_ cb) by lia.
      rewrite set_shared_same, insert_id by exact L. reflexivity.
  - intros P. eexists. split; [exact I|].
    rewrite live_count_insert, shared_set_shared, P. reflexivity.
Qed.

Lemma X6_witness :
  (exists s', decrement_shared 1 one_owner = Ok tt s' /\ live_count 1 s' = Some 0)
  /\ (decrement_shared 1 ;; increment_shared 1) one_owner = Ok tt one_owner
  /\ (exists s', increment_shared 1 one_owner = Ok tt s' /\ live_count 1 s' = Some 2)
  /\ (increment_shared 1 ;; decrement_shared 1) one_owner = Ok tt one_owner.
Proof.
  destruct (X6_counter_arithmetic 1 one_owner (ControlBlock_ctor 100))
    as (_ & Dec & Inc & _); [reflexivity | split; [discriminate | reflexivity] |].
  destruct Dec as (D1 & D2); [reflexivity|].
  destruct Inc as (I1 & I2); [reflexivity|].
  repeat split; assumption.
Defined.

(** X7.  Copy assignment onto the last owner of a block, from another handle
    that is empty or owns a different live block, releases the old block
    first (one deleter call, block deleted), then makes the destination a
    copy of the source and increments the count of the source's block. *)
Theorem X7_copy_assign_releases_last_owner (this other : nat) (s : state)
        (o oo : shared_ptr.t) (b : positive) (cb : ControlBlock.t) :
  this <> other ->
  objs s !! this = Some o ->
  shared_ptr.control_block_ptr o = Some b ->
  heap s !! b = Some (Live cb) ->
  ControlBlock.shared_refs_ cb = 1 ->
  objs s !! other = Some oo ->
  (forall b', shared_ptr.control_block_ptr oo = Some b' ->
              b' <> b /\ exists cb', heap s !! b' = Some (Live cb')) ->
  exists s',
    copy_assign this other s = Ok tt s'
    /\ heap s' !! b = Some Freed
    /\ trace s' = trace s ++ deleter_events b cb ++ [EvDeleteBlock b]
    /\ deleter_calls b s' = S (deleter_calls b s)
    /\ objs s' !! this = Some oo
    /\ objs s' !! other = Some oo
    /\ forall b' cb', shared_ptr.control_block_ptr oo = Some b' ->
         heap s !! b' = Some (Live cb') ->
         heap s' !! b'
         = Some (Live (set_shared
                         (wrap_size_t (ControlBlock.shared_refs_ cb' + 1)) cb')).
Proof.
  destruct s as [O H T]. cbn [objs heap trace]. intros Hne E N L C E' Hsrc.
  destruct (shared_ptr.control_block_ptr oo) as [b'|] eqn:N'.
  - destruct (Hsrc b' eq_refl) as (Hb & cb' & L').
    eexists. split;
      [apply (copy_assign_sole O H T this other o oo b b' cb cb'
                Hne E N L C E' N' Hb L')|].
    cbn [objs heap trace]. split.
    { rewrite lookup_insert_ne by exact Hb. apply lookup_insert_eq. }
    split; [reflexivity|]. split.
    { unfold deleter_calls. cbn [trace].
      rewrite calls_in_app, calls_in_release. lia. }
    split; [apply lookup_insert_eq|]. split.
    { rewrite lookup_insert_ne by exact Hne. exact E'. }
    intros b2 cb2 Eb L2. injection Eb as <-. rewrite L' in L2.
    injection L2 as <-. apply lookup_insert_eq.
  - eexists. split;
      [apply (copy_assign_sole_from_empty O H T this other o oo b cb
                Hne E N L C E' N')|].
    cbn [objs heap trace]. split; [apply lookup_insert_eq|].
    split; [reflexivity|]. split.
    { unfold deleter_calls. cbn [trace].
      rewrite calls_in_app, calls_in_release. lia. }
    split; [apply lookup_insert_eq|]. split.
    { rewrite lookup_insert_ne by exact Hne. exact E'. }
    intros b2 cb2 Eb. discriminate.
Qed.

Lemma X7_witness :
  exists s',
    copy_assign 2 0 two_owners = Ok tt s'
    /\ heap s' !! 2%positive = Some Freed
    /\ deleter_calls 2 s' = 1%nat
    /\ objs s' !! 2%nat = Some (shared_ptr.Build 100 (Some 1%positive))
    /\ live_count 1 s' = Some 3.
Proof.
  destruct (X7_copy_assign_releases_last_owner 2 0 two_owners
              (shared_ptr.Build 200 (Some 2%positive))
              (shared_ptr.Build 100 (Some 1%positive))
              2 (ControlBlock_ctor 200))
    as (s' & E & F & _ & D & Ot & _ & Src);
    [discriminate | reflexivity | reflexivity | reflexivity | reflexivity
    | reflexivity | | ].
  - intros b' Eb. injection Eb as <-. split; [discriminate|].
    exists (set_shared 2 (ControlBlock_ctor 100)). reflexivity.
  - exists s'. split; [exact E|]. split; [exact F|]. split; [exact D|].
    split; [exact Ot|].
    unfold live_count.
    rewrite (Src 1%positive (set_shared 2 (ControlBlock_ctor 100)) eq_refl eq_refl).
    reflexivity.
Defined.

(** X8.  Move assignment onto an empty handle from an owner transfers the
    payload and the block: no counter changes and no deleter runs, the
    destination returns the payload and reports the old count, and the
    source has both members null. *)
Theorem X8_move_assign_onto_empty (this other : nat) (s : state)
        (o : shared_ptr.t) (p : Z) (b : positive) (cb : ControlBlock.t) :
  this <> other ->
  objs s !! this = Some o ->
  shared_ptr.control_block_ptr o = None ->
  objs s !! other = Some (shared_ptr.Build p (Some b)) ->
  heap s !! b = Some (Live cb) ->
  exists s',
    move_assign this other s = Ok tt s'
    /\ heap s' = heap s
    /\ trace s' = trace s
    /\ objs s' !! this = Some (shared_ptr.Build p (Some b))
    /\ objs s' !! other = Some (shared_ptr.Build nullptr None)
    /\ get this s' = Ok p s'
    /\ use_count this s' = Ok (to_long (ControlBlock.shared_refs_ cb)) s'
    /\ operator_bool other s' = Ok false s'
    /\ get other s' = Ok nullptr s'
    /\ use_count other s' = Ok 0 s'.
Proof.
  destruct s as [O H T]. cbn [objs heap trace]. intros Hne E N E' L.
  eexists. split; [apply (move_assign_onto_empty O H T this other o _ Hne E N E')|].
  cbn [objs heap trace]. split; [reflexivity|]. split; [reflexivity|].
  set (O' := <[other := _]> _).
  assert (Et : O' !! this = Some (shared_ptr.Build p (Some b)))
    by (unfold O'; rewrite lookup_insert_ne by congruence; apply lookup_insert_eq).
  assert (Eo : O' !! other = Some (shared_ptr.Build nullptr None))
    by apply lookup_insert_eq.
  destruct (observe_owner O' H T this p b cb Et L) as (_ & U1 & G1).
  destruct (observe_empty O' H T other nullptr Eo) as (B2 & U2 & G2).
  repeat split; assumption.
Qed.

Lemma X8_witness :
  exists s',
    move_assign 1 0 owner_and_empty = Ok tt s'
    /\ heap s' = heap owner_and_empty
    /\ trace s' = trace owner_and_empty
    /\ objs s' !! 1%nat = Some (shared_ptr.Build 100 (Some 1%positive))
    /\ objs s' !! 0%nat = Some (shared_ptr.Build nullptr None)
    /\ get 1 s' = Ok 100 s'
    /\ use_count 1 s' = Ok 1 s'
    /\ operator_bool 0 s' = Ok false s'
    /\ get 0 s' = Ok nullptr s'
    /\ use_count 0 s' = Ok 0 s'.
Proof.
  apply (X8_move_assign_onto_empty 1 0 owner_and_empty
           (shared_ptr.Build nullptr None) 100 1 (ControlBlock_ctor 100));
    [discriminate | reflexivity | reflexivity | reflexivity | reflexivity].
Defined.

(** X9.  Move assignment of a handle to itself empties it: an owner has its
    block released (deleter called once, block deleted) whatever the count,
    and in every case the handle ends with both members null. *)
Theorem X9_self_move_assignment (this : nat) (s : state) (o : shared_ptr.t) :
  objs s !! this = Some o ->
  (forall b, shared_ptr.control_block_ptr o = Some b ->
             exists cb, heap s !! b = Some (Live cb)) ->
  exists s',
    move_assign this this s = Ok tt s'
    /\ objs s' = <[this := shared_ptr.Build nullptr None]> (objs s)
    /\ match shared_ptr.control_block_ptr o with
       | None => heap s' = heap s /\ trace s' = trace s
       | Some b =>
           heap s' = <[b := Freed]> (heap s)
           /\ deleter_calls b s' = S (deleter_calls b s)
       end.
Proof.
  destruct s as [O H T]. cbn [objs heap trace]. intros E Hl.
  destruct (shared_ptr.control_block_ptr o) as [b|] eqn:N.
  - destruct (Hl b eq_refl) as (cb & L).
    eexists. split; [apply (move_assign_self_owner O H T this o b cb E N L)|].
    cbn [objs heap trace]. split; [reflexivity|]. split; [reflexivity|].
    unfold deleter_calls. cbn [trace].
    rewrite calls_in_app, calls_in_release. lia.
  - eexists. split; [apply (move_assign_self_empty O H T this o E N)|].
    cbn [objs heap trace]. auto.
Qed.

Lemma X9_witness :
  exists s',
    move_assign 0 0 one_owner = Ok tt s'
    /\ objs s' = <[0%nat := shared_ptr.Build nullptr None]> (objs one_owner)
    /\ heap s' = <[1%positive := Freed]> (heap one_owner)
    /\ deleter_calls 1 s' = 1%nat.
Proof.
  destruct (X9_self_move_assignment 0 one_owner
              (shared_ptr.Build 100 (Some 1%positive)))
    as (s' & E & Ob & Hh & D).
  - reflexivity.
  - intros b Eb. injection Eb as <-. exists (ControlBlock_ctor 100). reflexivity.
  - exists s'. repeat split; assumption.
Defined.

(** X10.  [reset()] on an owner calls the deleter and deletes the block
    whatever the count.  Every other handle of that block is left dangling:
    its [use_count()] and its destructor then read freed memory.  A second
    [reset()] on the same handle does nothing. *)
Theorem X10_reset_ignores_other_owners (this : nat) (s : state)
        (o : shared_ptr.t) (b : positive) (cb : ControlBlock.t) :
  objs s !! this = Some o ->
  shared_ptr.control_block_ptr o = Some b ->
  heap s !! b = Some (Live cb) ->
  exists s',
    reset this s = Ok tt s'
    /\ heap s' = <[b := Freed]> (heap s)
    /\ trace s' = trace s ++ deleter_events b cb ++ [EvDeleteBlock b]
    /\ deleter_calls b s' = S (deleter_calls b s)
    /\ (forall h o', h <> this ->
          objs s !! h = Some o' ->
          shared_ptr.control_block_ptr o' = Some b ->
          objs s' !! h = Some o'
          /\ use_count h s' = UB UseAfterFree
          /\ shared_ptr_dtor h s' = UB UseAfterFree)
    /\ reset this s' = Ok tt s'.
Proof.
  destruct s as [O H T]. cbn [objs heap trace]. intros E N L.
  eexists. split; [apply (reset_owning O H T this o b cb E N L)|].
  cbn [objs heap trace]. split; [reflexivity|]. split; [reflexivity|]. split.
  { unfold deleter_calls. cbn [trace].
    rewrite calls_in_app, calls_in_release. lia. }
  split.
  - intros h o' Hh Eh Nh.
    assert (Eh' : <[this := shared_ptr.Build (shared_ptr.ptr_ o) None]> O !! h
                  = Some o')
      by (rewrite lookup_insert_ne by congruence; exact Eh).
    split; [exact Eh'|]. split.
    + apply (use_count_dangling _ _ _ h o' b Eh' Nh). apply lookup_insert_eq.
    + unfold shared_ptr_dtor.
      rewrite (bind_Ok _ _ _ _ _ (read_control_block_ptr_Ok _ _ _ h o' Eh')).
      rewrite Nh. unfold release, decrement_shared.
      rewrite !bind_bind. apply bind_UB.
      unfold shared_load, bind, block_at. cbn [heap].
      rewrite lookup_insert_eq. reflexivity.
  - apply (reset_empty _ _ _ this _ (lookup_insert_eq _ _ _)). reflexivity.
Qed.

Lemma X10_witness :
  exists s',
    reset 1 two_owners = Ok tt s'
    /\ heap s' = <[1%positive := Freed]> (heap two_owners)
    /\ deleter_calls 1 s' = 1%nat
    /\ use_count 0 s' = UB UseAfterFree
    /\ shared_ptr_dtor 0 s' = UB UseAfterFree.
Proof.
  destruct (X10_reset_ignores_other_owners 1 two_owners
              (shared_ptr.Build 100 (Some 1%positive)) 1
              (set_shared 2 (ControlBlock_ctor 100)))
    as (s' & E & Hh & _ & D & Others & _);
    [reflexivity | reflexivity | reflexivity |].
  destruct (Others 0%nat (shared_ptr.Build 100 (Some 1%positive)))
    as (_ & U & Dt); [discriminate | reflexivity | reflexivity |].
  exists s'. repeat split; assumption.
Defined.

(** X11.  [reset(p)] on an owner releases the old block whatever its count
    (one deleter call, block deleted) and then owns a fresh block over [p]
    with count 1 and the default deleter: the boolean conversion is true,
    [use_count()] is 1 and [get()] is [p]. *)
Theorem X11_reset_to_pointer (this : nat) (s : state) (o : shared_ptr.t)
        (b : positive) (cb : ControlBlock.t) (p : Z) :
  objs s !! this = Some o ->
  shared_ptr.control_block_ptr o = Some b ->
  heap s !! b = Some (Live cb) ->
  exists s' b',
    reset_ptr this p s = Ok tt s'
    /\ heap s !! b' = None
    /\ heap s' !! b = Some Freed
    /\ deleter_calls b s' = S (deleter_calls b s)
    /\ trace s' = trace s ++ deleter_events b cb ++ [EvDeleteBlock b]
    /\ heap s' !! b' = Some (Live (ControlBlock.Build p 1 0 my_default_deleter))
    /\ objs s' !! this = Some (shared_ptr.Build p (Some b'))
    /\ operator_bool this s' = Ok true s'
    /\ use_count this s' = Ok 1 s'
    /\ get this s' = Ok p s'.
Proof.
  destruct s as [O H T]. cbn [objs heap trace]. intros E N L.
  eexists _, (fresh (dom (<[b := Freed]> H))).
  split; [apply (reset_ptr_owning O H T this o b cb p E N L)|].
  cbn [objs heap trace].
  pose proof (fresh_heap_None (<[b := Freed]> H)) as F.
  assert (Hne : fresh (dom (<[b := Freed]> H)) <> b).
  { intros Eq. rewrite Eq in F at 1. rewrite lookup_insert_eq in F. discriminate. }
  split; [rewrite lookup_insert_ne in F by congruence; exact F|].
  split; [rewrite lookup_insert_ne by exact Hne; apply lookup_insert_eq|].
  split.
  { unfold deleter_calls. cbn [trace].
    rewrite calls_in_app, calls_in_release. lia. }
  split; [reflexivity|].
  split; [apply lookup_insert_eq|].
  split; [apply lookup_insert_eq|].
  refine (observe_owner _ _ _ this p _ (ControlBlock_ctor p) _ _);
    apply lookup_insert_eq.
Qed.

Lemma X11_witness :
  exists s' b',
    reset_ptr 1 300 two_owners = Ok tt s'
    /\ heap two_owners !! b' = None
    /\ heap s' !! 1%positive = Some Freed
    /\ deleter_calls 1 s' = S (deleter_calls 1 two_owners)
    /\ trace s' = trace two_owners
                  ++ deleter_events 1 (set_shared 2 (ControlBlock_ctor 100))
                  ++ [EvDeleteBlock 1]
    /\ heap s' !! b' = Some (Live (ControlBlock.Build 300 1 0 my_default_deleter))
    /\ objs s' !! 1%nat = Some (shared_ptr.Build 300 (Some b'))
    /\ operator_bool 1 s' = Ok true s'
    /\ use_count 1 s' = Ok 1 s'
    /\ get 1 s' = Ok 300 s'.
Proof.
  apply (X11_reset_to_pointer 1 two_owners
           (shared_ptr.Build 100 (Some 1%positive)) 1
           (set_shared 2 (ControlBlock_ctor 100)) 300); reflexivity.
Defined.

(** X12.  [get_shared_cnt()] and [get_weak_cnt()] dereference the control
    block pointer without a test: on an empty handle both dereference null,
    where [use_count()] returns 0.  On an owner of a live block they return
    the two counters. *)
Theorem X12_unguarded_counters (this : nat) (s : state) (o : shared_ptr.t) :
  objs s !! this = Some o ->
  match shared_ptr.control_block_ptr o with
  | None =>
      get_shared_cnt this s = UB NullDereference
      /\ get_weak_cnt this s = UB NullDereference
      /\ use_count this s = Ok 0 s
  | Some b =>
      forall cb, heap s !! b = Some (Live cb) ->
        get_shared_cnt this s = Ok (ControlBlock.shared_refs_ cb) s
        /\ get_weak_cnt this s = Ok (ControlBlock.weak_refs_ cb) s
        /\ use_count this s = Ok (to_long (ControlBlock.shared_refs_ cb)) s
  end.
Proof.
  destruct s as [O H T]. cbn [objs heap]. intros E.
  destruct (shared_ptr.control_block_ptr o) as [b|] eqn:N.
  - intros cb L. split; [|split].
    + apply (get_shared_cnt_Ok O H T this o b cb E N L).
    + apply (get_weak_cnt_Ok O H T this o b cb E N L).
    + apply (use_count_owning O H T this o b cb E N L).
  - destruct (get_cnt_empty O H T this o E N) as (G1 & G2).
    split; [exact G1|]. split; [exact G2|].
    apply (use_count_empty O H T this o E N).
Qed.

Lemma X12_witness :
  (get_shared_cnt 0 one_empty = UB NullDereference
   /\ get_weak_cnt 0 one_empty = UB NullDereference
   /\ use_count 0 one_empty = Ok 0 one_empty)
  /\ (get_shared_cnt 0 one_owner = Ok 1 one_owner
      /\ get_weak_cnt 0 one_owner = Ok 0 one_owner
      /\ use_count 0 one_owner = Ok 1 one_owner).
Proof.
  split.
  - apply (X12_unguarded_counters 0 one_empty (shared_ptr.Build nullptr None)).
    reflexivity.
  - apply (X12_unguarded_counters 0 one_owner
             (shared_ptr.Build 100 (Some 1%positive)) eq_refl
             (ControlBlock_ctor 100)).
    reflexivity.
Defined.


(** ** Whole programs *)

(** X13.  In every sequential program over the public interface, run from
    the empty state, the deleter of a control block has run exactly once if
    the block has been deleted and not at all otherwise: no deleter runs
    twice, and none runs on a block that stays allocated. *)
Theorem X13_deleter_runs_once_per_block (prog : list call) (s : state) :
  run_calls prog empty_state = Ok tt s ->
  forall b,
    deleter_calls b s
    = match heap s !! b with Some Freed => 1%nat | _ => 0%nat end.
Proof.
  intros E. destruct (run_calls_consistent prog _ _ _ consistent_empty E)
    as (_ & _ & C3).
  exact C3.
Qed.

Lemma X13_witness :
  deleter_calls 1 (state_after sample_program) = 1%nat
  /\ deleter_calls 2 (state_after sample_program) = 0%nat.
Proof.
  pose proof (X13_deleter_runs_once_per_block sample_program
                (state_after sample_program) ltac:(vm_compute; reflexivity)) as Hc.
  split; [rewrite (Hc 1%positive) | rewrite (Hc 2%positive)]; reflexivity.
Defined.

(** X14.  In every state a sequential program reaches from the empty state,
    a handle with a control block pointer points to an address that was
    allocated, and if that block is alive [get()] returns the payload stored
    in the block, the pointer its deleter will receive. *)
Theorem X14_owner_sees_block_payload (prog : list call) (s : state)
        (h : nat) (o : shared_ptr.t) (b : positive) :
  run_calls prog empty_state = Ok tt s ->
  objs s !! h = Some o ->
  shared_ptr.control_block_ptr o = Some b ->
  (exists c, heap s !! b = Some c)
  /\ forall cb, heap s !! b = Some (Live cb) ->
       ControlBlock.ptr_ cb = shared_ptr.ptr_ o
       /\ get h s = Ok (ControlBlock.ptr_ cb) s.
Proof.
  intros E Eh N.
  destruct (run_calls_consistent prog _ _ _ consistent_empty E) as (C1 & _ & _).
  pose proof (C1 h o Eh) as Ho. unfold handle_ok in Ho. rewrite N in Ho.
  destruct s as [O H T]. cbn [objs heap] in *.
  destruct (H !! b) as [c|] eqn:L; [|contradiction].
  split; [exists c; reflexivity|].
  intros cb Ec. injection Ec as ->. split; [exact Ho|].
  rewrite Ho. apply (get_Ok O H T h o Eh).
Qed.

Lemma X14_witness :
  (exists c, heap (state_after sample_program) !! 2%positive = Some c)
  /\ get 1 (state_after sample_program) = Ok 200 (state_after sample_program).
Proof.
  destruct (X14_owner_sees_block_payload sample_program
              (state_after sample_program) 1
              (shared_ptr.Build 200 (Some 2%positive)) 2)
    as (A & P);
    [vm_compute; reflexivity | vm_compute; reflexivity | reflexivity |].
  split; [exact A|].
  apply (P (ControlBlock_ctor 200)). vm_compute. reflexivity.
Defined.

(** X15.  No operation changes a weak count: in every state a sequential
    program reaches from the empty state each live block has weak count 0,
    which [get_weak_cnt()] returns, and a shared count within [size_t]. *)
Theorem X15_weak_count_stays_zero (prog : list call) (s : state)
        (b : positive) (cb : ControlBlock.t) :
  run_calls prog empty_state = Ok tt s ->
  heap s !! b = Some (Live cb) ->
  ControlBlock.weak_refs_ cb = 0
  /\ 0 <= ControlBlock.shared_refs_ cb < size_t_modulus
  /\ forall h o, objs s !! h = Some o ->
       shared_ptr.control_block_ptr o = Some b ->
       get_weak_cnt h s = Ok 0 s.
Proof.
  intros E L.
  destruct (run_calls_consistent prog _ _ _ consistent_empty E) as (_ & C2 & _).
  destruct (C2 b cb L) as (W & R). split; [exact W|]. split; [exact R|].
  intros h o Eh N. destruct s as [O H T]. cbn [objs heap] in *.
  rewrite (get_weak_cnt_Ok O H T h o b cb Eh N L), W. reflexivity.
Qed.

Lemma X15_witness :
  get_weak_cnt 1 (state_after sample_program)
  = Ok 0 (state_after sample_program).
Proof.
  destruct (X15_weak_count_stays_zero sample_program
              (state_after sample_program) 2 (ControlBlock_ctor 200))
    as (_ & _ & G); [vm_compute; reflexivity | vm_compute; reflexivity |].
  apply (G 1%nat (shared_ptr.Build 200 (Some 2%positive)));
    [vm_compute; reflexivity | reflexivity].
Defined.

(** X16.  Whatever calls a program makes, from any state: a deleted block
    is never revived, a live block is deleted or keeps its payload pointer,
    deleter and weak count, and recorded events are never removed. *)
Theorem X16_blocks_only_change_count_and_liveness (prog : list call)
        (s s' : state) :
  run_calls prog s = Ok tt s' ->
  (forall b, heap s !! b = Some Freed -> heap s' !! b = Some Freed)
  /\ (forall b cb, heap s !! b = Some (Live cb) ->
        heap s' !! b = Some Freed
        \/ exists cb', heap s' !! b = Some (Live cb')
             /\ ControlBlock.ptr_ cb' = ControlBlock.ptr_ cb
             /\ ControlBlock.deleter_ptr_ cb' = ControlBlock.deleter_ptr_ cb
             /\ ControlBlock.weak_refs_ cb' = ControlBlock.weak_refs_ cb)
  /\ exists T', trace s' = trace s ++ T'.
Proof. intros E. apply (steps_run_calls prog s tt s' E). Qed.

Lemma X16_witness :
  (forall b, heap two_owners !! b = Some Freed ->
             heap (final_state [Reset 0; ResetTo 2 300] two_owners) !! b
             = Some Freed)
  /\ exists T', trace (final_state [Reset 0; ResetTo 2 300] two_owners)
                = trace two_owners ++ T'.
Proof.
  destruct (X16_blocks_only_change_count_and_liveness [Reset 0; ResetTo 2 300]
              two_owners (final_state [Reset 0; ResetTo 2 300] two_owners))
    as (F & _ & Tr); [vm_compute; reflexivity |].
  split; assumption.
Defined.

(** X17.  In a program that only constructs, copy-constructs and destroys
    handles (and calls accessors), run from the empty state with fewer than
    [2^64] calls: the count of every live block is the number of handles
    pointing to it, which is at least one, and its deleter has not run; a
    deleted block has no handle pointing to it and its deleter has run
    once. *)
Theorem X17_counts_equal_owners (prog : list call) (s : state) :
  forallb no_overwrite prog = true ->
  Z.of_nat (length prog) < size_t_modulus ->
  run_calls prog empty_state = Ok tt s ->
  forall b,
    match heap s !! b with
    | Some (Live cb) =>
        ControlBlock.shared_refs_ cb = Z.of_nat (owners b s)
        /\ (0 < owners b s)%nat
        /\ deleter_calls b s = 0%nat
    | Some Freed => owners b s = 0%nat /\ deleter_calls b s = 1%nat
    | None => owners b s = 0%nat /\ deleter_calls b s = 0%nat
    end.
Proof.
  intros F B E b.
  assert (K : counted s).
  { apply (run_calls_counted prog empty_state s tt F counted_empty
             consistent_empty); [|exact E].
    cbn. rewrite map_size_empty. lia. }
  destruct (run_calls_consistent prog _ _ _ consistent_empty E) as (_ & _ & C3).
  pose proof (K b) as Kb. pose proof (C3 b) as Cb.
  unfold deleter_calls.
  destruct (heap s !! b) as [[cb|]|]; intuition.
Qed.

Lemma X17_witness :
  (0 < owners 1 (state_after counting_program))%nat
  /\ deleter_calls 1 (state_after counting_program) = 0%nat
  /\ owners 2 (state_after counting_program) = 0%nat
  /\ deleter_calls 2 (state_after counting_program) = 1%nat.
Proof.
  pose proof (X17_counts_equal_owners counting_program
                (state_after counting_program)
                ltac:(reflexivity) ltac:(reflexivity)
                ltac:(vm_compute; reflexivity)) as Hc.
  pose proof (Hc 1%positive) as H1. pose proof (Hc 2%positive) as H2.
  assert (L1 : heap (state_after counting_program) !! 1%positive
               = Some (Live (ControlBlock_ctor 100)))
    by (vm_compute; reflexivity).
  assert (L2 : heap (state_after counting_program) !! 2%positive = Some Freed)
    by (vm_compute; reflexivity).
  rewrite L1 in H1. rewrite L2 in H2.
  destruct H1 as (_ & P & D1). destruct H2 as (O2 & D2).
  repeat split; assumption.
Defined.

(** X18.  If such a program ends with no handle alive, every control block
    it allocated has been deleted and its deleter has run exactly once. *)
Theorem X18_no_leak_without_overwriting (prog : list call) (s : state) :
  forallb no_overwrite prog = true ->
  Z.of_nat (length prog) < size_t_modulus ->
  run_calls prog empty_state = Ok tt s ->
  objs s = ∅ ->
  forall b c, heap s !! b = Some c -> c = Freed /\ deleter_calls b s = 1%nat.
Proof.
  intros F B E Em b c L.
  assert (K : counted s).
  { apply (run_calls_counted prog empty_state s tt F counted_empty
             consistent_empty); [|exact E].
    cbn. rewrite map_size_empty. lia. }
  destruct (run_calls_consistent prog _ _ _ consistent_empty E) as (_ & _ & C3).
  pose proof (K b) as Kb. pose proof (C3 b) as Cb. rewrite L in Kb, Cb.
  assert (Z0 : owners b s = 0%nat).
  { unfold owners. rewrite Em, map_filter_empty. apply map_size_empty. }
  destruct c as [cb|].
  - destruct Kb as (_ & P). lia.
  - split; [reflexivity | exact Cb].
Qed.

Lemma X18_witness :
  heap (state_after balanced_program) !! 1%positive = Some Freed
  /\ deleter_calls 1 (state_after balanced_program) = 1%nat
  /\ deleter_calls 2 (state_after balanced_program) = 1%nat.
Proof.
  pose proof (X18_no_leak_without_overwriting balanced_program
                (state_after balanced_program)
                ltac:(reflexivity) ltac:(reflexivity)
                ltac:(vm_compute; reflexivity)
                ltac:(vm_compute; reflexivity)) as Hc.
  destruct (Hc 1%positive Freed ltac:(vm_compute; reflexivity)) as (_ & D1).
  destruct (Hc 2%positive Freed ltac:(vm_compute; reflexivity)) as (_ & D2).
  split; [vm_compute; reflexivity|]. split; assumption.
Defined.
